(** * CollaborativeEditor: edit history, cursor registry and document store

    A shallow embedding of the state and the event handlers of
    [src/CollaborativeEditor.js] (a React function component), and the
    properties of its undo/redo history, version counter, cursor registry
    and cursor-position read-out.

    Conventions of the embedding.
    - A JavaScript string is a [string]; its characters stand for UTF-16
      code units, [String.length] for [.length].
    - JavaScript numbers that hold integers ([version], [historyIndex],
      cursor offsets, ids) are [Z]; [historyIndex] starts at [-1].
    - [document.content] is an [option string]: [None] is the JavaScript
      value [undefined], which [history[i]] yields out of range.
    - React state is one record [State]; a handler is a function on it.
      A handler that dereferences [undefined] (a [TypeError] raised before
      any state setter ran) returns [None].
    - Values the handlers read from the environment are arguments: the
      textarea's selection, the clock reading of [new Date()], the results
      of [Math.random()], and the [historyIndex] captured by the
      [saveToHistory] closure a timer or a file reader holds.
    - A double is the rational number it denotes; a product of doubles is
      the exact product rounded to the nearest double, ties to even. *)

From Stdlib Require Import ZArith List String Ascii Bool Lia QArith Qround.
Import ListNotations.

#[local] Open Scope string_scope.
#[local] Open Scope Z_scope.

(** ** JavaScript built-ins used by the component *)

Module Js.

(** Line feed, the separator of [split('\n')]. *)
Definition LF : ascii := ascii_of_nat 10.

Fixpoint take (n : nat) (s : string) : string :=
  match n, s with
  | S n', String c r => String c (take n' r)
  | _, _ => EmptyString
  end.

Fixpoint drop (n : nat) (s : string) : string :=
  match n, s with
  | S n', String _ r => drop n' r
  | _, _ => s
  end.

Definition len (s : string) : Z := Z.of_nat (String.length s).

(** [Math.min(Math.max(x, 0), n)], the clamping step of [substring]. *)
Definition clamp (x n : Z) : Z := Z.min (Z.max x 0) n.

(** [s.substring(start, stop)]: both indices are clamped to
    [0 .. s.length] and swapped when [start > stop]. *)
Definition substring (s : string) (start stop : Z) : string :=
  let a := clamp start (len s) in
  let b := clamp stop (len s) in
  let lo := Z.min a b in
  let hi := Z.max a b in
  take (Z.to_nat (hi - lo)) (drop (Z.to_nat lo) s).

(** [s.substring(start)]: the missing end is [s.length]. *)
Definition substring_from (s : string) (start : Z) : string :=
  substring s start (len s).

(** [s.split('\n')]: the segments between line feeds; the empty string
    splits into one empty segment. *)
Fixpoint split_LF (s : string) : list string :=
  match s with
  | EmptyString => [EmptyString]
  | String c r =>
      if Ascii.eqb c LF then EmptyString :: split_LF r
      else match split_LF r with
           | seg :: segs => String c seg :: segs
           | [] => [String c EmptyString]
           end
  end.

(** A relative index of [Array.prototype.slice]: negative counts from
    the end, and the result is kept within [0 .. n]. *)
Definition relative (k n : Z) : Z :=
  if k <? 0 then Z.max (n + k) 0 else Z.min k n.

(** [a.slice(start, stop)]. *)
Definition slice {A : Type} (a : list A) (start stop : Z) : list A :=
  let n := Z.of_nat (List.length a) in
  let k := relative start n in
  let final := relative stop n in
  firstn (Z.to_nat (final - k)) (skipn (Z.to_nat k) a).

(** [a.slice(start)]: the missing end is [a.length]. *)
Definition slice_from {A : Type} (a : list A) (start : Z) : list A :=
  slice a start (Z.of_nat (List.length a)).

(** [a[i]] for an integer [i]: [None] is [undefined]. *)
Definition index {A : Type} (a : list A) (i : Z) : option A :=
  if i <? 0 then None else nth_error a (Z.to_nat i).

(** The regular expression [/\.[^/.]+$/] of [importDocument]: a match
    starts at a dot that is followed, up to the end of the input, by one
    or more characters that are neither a slash nor a dot. *)
Definition extension_char (c : ascii) : bool :=
  negb (Ascii.eqb c "/"%char) && negb (Ascii.eqb c "."%char).

Fixpoint all_chars (p : ascii -> bool) (s : string) : bool :=
  match s with
  | EmptyString => true
  | String c r => p c && all_chars p r
  end.

Definition extension_matches (s : string) : bool :=
  match s with
  | String c (String d r) =>
      Ascii.eqb c "."%char && all_chars extension_char (String d r)
  | _ => false
  end.

(** [name.replace(re, empty)] for that expression: the leftmost match is
    removed; it reaches the end of the input, so nothing follows it. *)
Fixpoint replace_extension (s : string) : string :=
  if extension_matches s then EmptyString
  else match s with
       | EmptyString => EmptyString
       | String c r => String c (replace_extension r)
       end.

(** [2 ^ k] for [k >= 0], and 1 below. *)
Definition pow2 (k : Z) : Z := 2 ^ Z.max k 0.

(** The binade of [a / b] for [a, b > 0]: the [e] with
    [2 ^ e <= a / b < 2 ^ (e + 1)]. *)
Definition binade (a b : Z) : Z :=
  let e0 := Z.log2 a - Z.log2 b in
  if pow2 e0 * b <=? a * pow2 (- e0) then e0 else e0 - 1.

(** The integer nearest to [n / d] for [d > 0], ties to the even one. *)
Definition roundHalfEven (n d : Z) : Z :=
  let f := n / d in
  let r := n mod d in
  match 2 * r ?= d with
  | Lt => f
  | Gt => f + 1
  | Eq => if Z.even f then f else f + 1
  end.

(** The double nearest to [x] (IEEE 754 binary64, round to nearest, ties
    to even): a multiple of [2 ^ (e - 52)] for [x] in binade [e], of
    [2 ^ -1074] below the normal range.  Magnitudes of [2 ^ 1024] and
    more, where the code has [Infinity], do not arise here: the products
    taken are those of a number below 1 and a length. *)
Definition nearestDouble (x : Q) : Q :=
  let a := Z.abs (Qnum x) in
  let b := Z.pos (Qden x) in
  if a =? 0 then 0%Q
  else
    let j := 52 - Z.max (binade a b) (-1022) in
    let k := roundHalfEven (a * pow2 j) (b * pow2 (- j)) in
    Qmake (Z.sgn (Qnum x) * k * pow2 (- j)) (Z.to_pos (pow2 j)).

(** [x * y] on doubles. *)
Definition times (x y : Q) : Q := nearestDouble (x * y).

(** [Math.floor(x)]. *)
Definition floor (x : Q) : Z := Qfloor x.

End Js.

(** ** Component state *)

Record Document := mkDocument {
  title : string;
  content : option string;
  lastModified : string;
  version : Z
}.

Record User := mkUser {
  id : Z;
  name : string;
  color : string;
  cursor : Z;
  active : bool
}.

Inductive Align := left | center | right.

Record Formatting := mkFormatting {
  bold : bool;
  italic : bool;
  underline : bool;
  align : Align
}.

(** The argument of [applyFormatting]; the toolbar passes these three. *)
Inductive Format := Bold | Italic | Underline.

(** The closure a pending [setTimeout] of [handleContentChange] holds: the
    content to save and the [historyIndex] its [saveToHistory] captured. *)
Record PendingSave := mkPendingSave {
  pendingContent : string;
  pendingIndex : Z
}.

Record State := mkState {
  document : Document;
  users : list User;
  isTyping : bool;
  showUsers : bool;
  history : list string;
  historyIndex : Z;
  selectedText : string;
  formatting : Formatting;
  typingTimeout : option PendingSave
}.

(** The [useState] initial values; [now] is the clock at mount. *)
Definition initialState (now : string) : State :=
  {| document := {| title := "Untitled Document"; content := Some EmptyString;
                    lastModified := now; version := 1 |};
     users := [ {| id := 1; name := "You"; color := "#3B82F6";
                   cursor := 0; active := true |};
                {| id := 2; name := "Alice"; color := "#EF4444";
                   cursor := 15; active := true |};
                {| id := 3; name := "Bob"; color := "#10B981";
                   cursor := 32; active := false |} ];
     isTyping := false;
     showUsers := true;
     history := [];
     historyIndex := -1;
     selectedText := EmptyString;
     formatting := {| bold := false; italic := false; underline := false;
                      align := left |};
     typingTimeout := None |}.

(** Field updates, written as the spread expressions of the source. *)
Definition setDocument (f : Document -> Document) (s : State) : State :=
  {| document := f (document s); users := users s; isTyping := isTyping s;
     showUsers := showUsers s; history := history s;
     historyIndex := historyIndex s; selectedText := selectedText s;
     formatting := formatting s; typingTimeout := typingTimeout s |}.

Definition setUsers (f : list User -> list User) (s : State) : State :=
  {| document := document s; users := f (users s); isTyping := isTyping s;
     showUsers := showUsers s; history := history s;
     historyIndex := historyIndex s; selectedText := selectedText s;
     formatting := formatting s; typingTimeout := typingTimeout s |}.

Definition setIsTyping (b : bool) (s : State) : State :=
  {| document := document s; users := users s; isTyping := b;
     showUsers := showUsers s; history := history s;
     historyIndex := historyIndex s; selectedText := selectedText s;
     formatting := formatting s; typingTimeout := typingTimeout s |}.

Definition setHistory (f : list string -> list string) (s : State) : State :=
  {| document := document s; users := users s; isTyping := isTyping s;
     showUsers := showUsers s; history := f (history s);
     historyIndex := historyIndex s; selectedText := selectedText s;
     formatting := formatting s; typingTimeout := typingTimeout s |}.

Definition setHistoryIndex (f : Z -> Z) (s : State) : State :=
  {| document := document s; users := users s; isTyping := isTyping s;
     showUsers := showUsers s; history := history s;
     historyIndex := f (historyIndex s); selectedText := selectedText s;
     formatting := formatting s; typingTimeout := typingTimeout s |}.

Definition setSelectedText (t : string) (s : State) : State :=
  {| document := document s; users := users s; isTyping := isTyping s;
     showUsers := showUsers s; history := history s;
     historyIndex := historyIndex s; selectedText := t;
     formatting := formatting s; typingTimeout := typingTimeout s |}.

Definition setFormatting (f : Formatting -> Formatting) (s : State) : State :=
  {| document := document s; users := users s; isTyping := isTyping s;
     showUsers := showUsers s; history := history s;
     historyIndex := historyIndex s; selectedText := selectedText s;
     formatting := f (formatting s); typingTimeout := typingTimeout s |}.

Definition setTypingTimeout (t : option PendingSave) (s : State) : State :=
  {| document := document s; users := users s; isTyping := isTyping s;
     showUsers := showUsers s; history := history s;
     historyIndex := historyIndex s; selectedText := selectedText s;
     formatting := formatting s; typingTimeout := t |}.

(** ** Handlers *)

(** [saveToHistory(content)] as held by a closure that captured
    [historyIndex = captured]: the history is cut after the captured index,
    the content is pushed, the last 50 entries are kept; the index state is
    incremented from its current value. *)
Definition saveToHistory (captured : Z) (c : string) (s : State) : State :=
  setHistoryIndex (fun prev => prev + 1)
    (setHistory (fun prev =>
       let newHistory := Js.slice prev 0 (captured + 1) in
       let newHistory := (newHistory ++ [c])%list in
       Js.slice_from newHistory (-50)) s).

(** [saveToHistory] of the current render: the captured index is the
    current one.  This is the commit of the history log. *)
Definition commit (c : string) (s : State) : State :=
  saveToHistory (historyIndex s) c s.

(** [prev.map(user => user.id === uid ? { ...user, cursor: pos } : user)],
    the update both cursor writers apply. *)
Definition withCursor (pos : Z) (u : User) : User :=
  {| id := id u; name := name u; color := color u; cursor := pos;
     active := active u |}.

Definition mapCursor (uid pos : Z) (us : list User) : list User :=
  map (fun user => if id user =? uid then withCursor pos user else user) us.

(** [handleContentChange(e)] with [e.target.value = newContent],
    [e.target.selectionStart = cursorPosition] and the clock at [now].
    Any pending timeout is cleared and a new one is armed with the
    [saveToHistory] of this render. *)
Definition handleContentChange (newContent : string) (cursorPosition : Z)
    (now : string) (s : State) : State :=
  let s1 := setDocument (fun prev =>
              {| title := title prev; content := Some newContent;
                 lastModified := now; version := version prev + 1 |}) s in
  let s2 := setUsers (mapCursor 1 cursorPosition) s1 in
  let s3 := setIsTyping true s2 in
  setTypingTimeout
    (Some {| pendingContent := newContent; pendingIndex := historyIndex s |})
    s3.

(** The callback of the typing timeout, 1000 ms after the last change. *)
Definition typingTimeoutFires (s : State) : State :=
  match typingTimeout s with
  | None => s
  | Some p =>
      saveToHistory (pendingIndex p) (pendingContent p)
        (setIsTyping false (setTypingTimeout None s))
  end.

Definition handleTitleChange (value : string) (s : State) : State :=
  setDocument (fun prev =>
    {| title := value; content := content prev;
       lastModified := lastModified prev; version := version prev |}) s.

(** [handleTextSelection()] with the textarea's selection [start .. stop]. *)
Definition handleTextSelection (start stop : Z) (s : State) : option State :=
  match content (document s) with
  | None => None
  | Some c => Some (setSelectedText (Js.substring c start stop) s)
  end.

Definition marker (f : Format) : string :=
  match f with
  | Bold => "**"
  | Italic => "*"
  | Underline => "__"
  end.

Definition toggle (f : Format) (prev : Formatting) : Formatting :=
  match f with
  | Bold => {| bold := negb (bold prev); italic := italic prev;
               underline := underline prev; align := align prev |}
  | Italic => {| bold := bold prev; italic := negb (italic prev);
                 underline := underline prev; align := align prev |}
  | Underline => {| bold := bold prev; italic := italic prev;
                    underline := negb (underline prev); align := align prev |}
  end.

(** [applyFormatting(format)] with the textarea's selection
    [start .. stop]; [selectedText] is the state set by the last
    [handleTextSelection]. *)
Definition applyFormatting (f : Format) (start stop : Z) (s : State)
    : option State :=
  if String.eqb (selectedText s) EmptyString then Some s
  else
    match content (document s) with
    | None => None
    | Some c =>
        let beforeText := Js.substring c 0 start in
        let afterText := Js.substring_from c stop in
        let formattedText := marker f ++ selectedText s ++ marker f in
        let newContent := beforeText ++ formattedText ++ afterText in
        Some (setFormatting (toggle f)
               (setDocument (fun prev =>
                  {| title := title prev; content := Some newContent;
                     lastModified := lastModified prev;
                     version := version prev |}) s))
    end.

Definition undo (s : State) : State :=
  if 0 <? historyIndex s then
    setDocument (fun prev =>
        {| title := title prev;
           content := Js.index (history s) (historyIndex s - 1);
           lastModified := lastModified prev; version := version prev |})
      (setHistoryIndex (fun prev => prev - 1) s)
  else s.

Definition redo (s : State) : State :=
  if historyIndex s <? Z.of_nat (List.length (history s)) - 1 then
    setDocument (fun prev =>
        {| title := title prev;
           content := Js.index (history s) (historyIndex s + 1);
           lastModified := lastModified prev; version := version prev |})
      (setHistoryIndex (fun prev => prev + 1) s)
  else s.

(** The [disabled] expressions of the undo and redo buttons, negated. *)
Definition canUndo (s : State) : bool := negb (historyIndex s <=? 0).

Definition canRedo (s : State) : bool :=
  negb (historyIndex s >=? Z.of_nat (List.length (history s)) - 1).

(** [reader.onload] of [importDocument]: [fileName] is [file.name],
    [text] is [e.target.result], [captured] the [historyIndex] of the
    render in which the file was chosen. *)
Definition readerOnload (captured : Z) (fileName text : string) (s : State)
    : State :=
  saveToHistory captured text
    (setDocument (fun prev =>
       {| title := Js.replace_extension fileName; content := Some text;
          lastModified := lastModified prev;
          version := version prev + 1 |}) s).

(** [importDocument] when the reader finishes before the next render. *)
Definition importDocument (fileName text : string) (s : State) : State :=
  readerOnload (historyIndex s) fileName text s.

Record Position := mkPosition { line : Z; column : Z }.

(** [lines[lines.length - 1]] of a [split] result. *)
Definition lastSegment (lines : list string) : string :=
  List.last lines EmptyString.

Definition getCursorPosition (position : Z) (c : string) : Position :=
  let lines := Js.split_LF (Js.substring c 0 position) in
  {| line := Z.of_nat (List.length lines);
     column := Js.len (lastSegment lines) + 1 |}.

(** The interval callback that simulates remote users; [r1], [r2], [r3]
    are the three results of [Math.random()] in evaluation order, and
    [0.7] is the double nearest to 7/10. *)
Definition remoteCursorTick (r1 r2 r3 : Q) (s : State) : option State :=
  if Qle_bool r1 (Js.nearestDouble (7 # 10)) then Some s
  else
    let activeUsers :=
      filter (fun u => active u && negb (id u =? 1)) (users s) in
    if 0 <? Z.of_nat (List.length activeUsers) then
      match content (document s),
            Js.index activeUsers
              (Js.floor
                 (Js.times r2
                    (inject_Z (Z.of_nat (List.length activeUsers)))))
      with
      | Some c, Some randomUser =>
          let randomPosition :=
            Js.floor (Js.times r3 (inject_Z (Js.len c))) in
          Some (setUsers (mapCursor (id randomUser) randomPosition) s)
      | _, _ => None
      end
    else Some s.

(** ** Events and runs *)

Inductive Event :=
| ContentChange (value : string) (selectionStart : Z) (now : string)
| TypingTimeout
| TitleChange (value : string)
| TextSelection (start stop : Z)
| ApplyFormatting (f : Format) (start stop : Z)
| UndoClick
| RedoClick
| FileLoaded (fileName text : string)
| RemoteTick (r1 r2 r3 : Q).

Definition step (e : Event) (s : State) : option State :=
  match e with
  | ContentChange v p now => Some (handleContentChange v p now s)
  | TypingTimeout => Some (typingTimeoutFires s)
  | TitleChange v => Some (handleTitleChange v s)
  | TextSelection a b => handleTextSelection a b s
  | ApplyFormatting f a b => applyFormatting f a b s
  | UndoClick => Some (undo s)
  | RedoClick => Some (redo s)
  | FileLoaded n t => Some (importDocument n t s)
  | RemoteTick r1 r2 r3 => remoteCursorTick r1 r2 r3 s
  end.

Fixpoint run (es : list Event) (s : State) : option State :=
  match es with
  | [] => Some s
  | e :: es' =>
      match step e s with
      | Some s' => run es' s'
      | None => None
      end
  end.

(** A run of commits, oldest first. *)
Definition commits (cs : list string) (s : State) : State :=
  fold_left (fun acc c => commit c acc) cs s.

(** The last [n] elements of a list (all of it when it is shorter). *)
Definition keepLast {A : Type} (n : nat) (l : list A) : list A :=
  skipn (List.length l - n) l.

(** The state after the handler of an event, whether or not it threw: a
    handler that throws does so before any state setter ran. *)
Definition stateAfter (o : option State) (s : State) : State :=
  match o with
  | Some s' => s'
  | None => s
  end.

(** ** Scenarios and vocabulary of the statements *)

(** One edit followed by its quiet interval: the change event and then
    the timeout that saves it. *)
Definition typeAndSettle (c : string) : list Event :=
  [ContentChange c (Js.len c) "t"; TypingTimeout].

(** An edit after two undo clicks: three settled edits, two undo clicks,
    one settled edit. *)
Definition editAfterTwoUndos : list Event :=
  (typeAndSettle "a" ++ typeAndSettle "ab" ++ typeAndSettle "abc"
   ++ [UndoClick; UndoClick] ++ typeAndSettle "az")%list.

(** Two saved edits, a third edit, and an undo click before its
    timeout. *)
Definition undoInsideQuietInterval : list Event :=
  (typeAndSettle "a" ++ typeAndSettle "ab"
   ++ [ContentChange "abc" 3 "t"; UndoClick])%list.

(** Edits that are each followed by their timeout before the next
    event. *)
Definition settledEdits (edits : list (string * Z * string)) : list Event :=
  flat_map
    (fun e => [ContentChange (fst (fst e)) (snd (fst e)) (snd e);
               TypingTimeout])
    edits.

(** A state with uncommitted formatting: "a", "ab" and "abc" are
    committed, one undo shows "ab", and the selection "ab" is made bold;
    the content "**ab**" is in no history entry. *)
Definition formattedAfterUndo : list Event :=
  (typeAndSettle "a" ++ typeAndSettle "ab" ++ typeAndSettle "abc"
   ++ [UndoClick; TextSelection 0 2; ApplyFormatting Bold 0 2])%list.

(** "ab" is typed and selected; the state is ready for a formatting
    click. *)
Definition typedAndSelected : list Event :=
  [ContentChange "ab" 2 "t1"; TextSelection 0 2].

(** The segments of a [split('\n')] joined back with line feeds. *)
Fixpoint join_LF (segs : list string) : string :=
  match segs with
  | [] => EmptyString
  | seg :: rest =>
      match rest with
      | [] => seg
      | _ :: _ => seg ++ String Js.LF (join_LF rest)
      end
  end.

Definition no_LF (s : string) : bool :=
  Js.all_chars (fun c => negb (Ascii.eqb c Js.LF)) s.

Fixpoint count_LF (s : string) : nat :=
  match s with
  | EmptyString => 0
  | String c r => (if Ascii.eqb c Js.LF then 1 else 0) + count_LF r
  end.

(** "ab", a line feed, "cd". *)
Definition ab_LF_cd : string := "ab" ++ String Js.LF "cd".

(** The version counter shown in the header. *)
Definition versionOf (s : State) : Z := version (document s).

(** ** Values the render shows *)

(** [users.filter(u => u.active)], the list of the users panel and its
    counter. *)
Definition activeUsers (s : State) : list User :=
  filter (fun u => active u) (users s).

(** [document.content.length], the "Characters" field of the status
    bar. *)
Definition statusCharacters (c : string) : Z := Js.len c.

(** [document.content.split('\n').length], the "Lines" field of the
    status bar. *)
Definition statusLines (c : string) : Z :=
  Z.of_nat (List.length (Js.split_LF c)).

(** What a user record holds besides its cursor. *)
Definition profile (u : User) : Z * string * string * bool :=
  (id u, name u, color u, active u).

(** Reading order of positions: by line, then by column. *)
Definition positionLt (p q : Position) : Prop :=
  line p < line q \/ (line p = line q /\ column p < column q).

(** A burst of content changes: the value, the selection start and the
    clock of each. *)
Definition changeEvents (edits : list (string * Z * string)) : list Event :=
  map (fun e => ContentChange (fst (fst e)) (snd (fst e)) (snd e)) edits.

Definition burst (edits : list (string * Z * string)) (s : State) : State :=
  fold_left
    (fun acc e => handleContentChange (fst (fst e)) (snd (fst e)) (snd e) acc)
    edits s.

(** Whether a timeout of [handleContentChange] is pending. *)
Definition savePending (s : State) : bool :=
  match typingTimeout s with
  | Some _ => true
  | None => false
  end.

(** ** Array slices *)

Section Slices.
Context {A : Type}.
Implicit Types (a : list A) (x : A).

Lemma slice_prefix a k :
  0 <= k -> Js.slice a 0 k = firstn (Z.to_nat k) a.
Proof.
  intros Hk. unfold Js.slice, Js.relative. simpl.
  destruct (k <? 0) eqn:E; [apply Z.ltb_lt in E; lia|].
  rewrite (Z.min_l 0) by lia. rewrite Z.sub_0_r. simpl.
  destruct (Z.le_gt_cases k (Z.of_nat (List.length a))) as [H|H].
  - now rewrite Z.min_l by lia.
  - rewrite Z.min_r by lia. rewrite Nat2Z.id.
    rewrite firstn_all. symmetry. apply firstn_all2. lia.
Qed.

Lemma slice_from_last a (n : nat) :
  (0 < n)%nat -> Js.slice_from a (- Z.of_nat n) = keepLast n a.
Proof.
  intros Hn. unfold Js.slice_from, Js.slice, Js.relative, keepLast.
  destruct (- Z.of_nat n <? 0) eqn:E; [|apply Z.ltb_ge in E; lia].
  destruct (Z.of_nat (List.length a) <? 0) eqn:E'; [apply Z.ltb_lt in E'; lia|].
  rewrite Z.min_id.
  replace (Z.to_nat (Z.max (Z.of_nat (List.length a) + - Z.of_nat n) 0))
    with (List.length a - n)%nat by lia.
  apply firstn_all2. rewrite length_skipn. lia.
Qed.

Lemma length_keepLast (n : nat) a :
  List.length (keepLast n a) = Nat.min n (List.length a).
Proof. unfold keepLast. rewrite length_skipn. lia. Qed.

Lemma keepLast_short (n : nat) a :
  (List.length a <= n)%nat -> keepLast n a = a.
Proof.
  intros H. unfold keepLast.
  replace (List.length a - n)%nat with 0%nat by lia. reflexivity.
Qed.

Lemma keepLast_snoc (n : nat) a x :
  (0 < n)%nat -> keepLast n (keepLast n a ++ [x]) = keepLast n (a ++ [x]).
Proof.
  intros Hn. unfold keepLast at 1 3.
  rewrite !length_app, length_keepLast. simpl.
  destruct (Nat.le_gt_cases (List.length a) n) as [H|H].
  - rewrite keepLast_short by assumption.
    now rewrite Nat.min_r by assumption.
  - rewrite Nat.min_l by lia. unfold keepLast.
    rewrite !skipn_app, !length_skipn, skipn_skipn.
    f_equal; [f_equal; lia|].
    f_equal. lia.
Qed.

Lemma index_in_range a (i : Z) :
  0 <= i < Z.of_nat (List.length a) ->
  exists x, Js.index a i = Some x.
Proof.
  intros [H0 H1]. unfold Js.index.
  destruct (i <? 0) eqn:E; [apply Z.ltb_lt in E; lia|].
  destruct (nth_error a (Z.to_nat i)) eqn:En; [eauto|].
  apply nth_error_None in En. lia.
Qed.

Lemma index_out_of_range a (i : Z) :
  Z.of_nat (List.length a) <= i -> Js.index a i = None.
Proof.
  intros H. unfold Js.index.
  destruct (i <? 0); [reflexivity|].
  apply nth_error_None. lia.
Qed.

End Slices.

(** ** The history log *)

Lemma history_saveToHistory k c s :
  -1 <= k ->
  history (saveToHistory k c s)
  = keepLast 50 (firstn (Z.to_nat (k + 1)) (history s) ++ [c]).
Proof.
  intros Hk. unfold saveToHistory. simpl.
  rewrite slice_prefix by lia.
  exact (slice_from_last _ 50%nat ltac:(lia)).
Qed.

Lemma historyIndex_saveToHistory k c s :
  historyIndex (saveToHistory k c s) = historyIndex s + 1.
Proof. reflexivity. Qed.

Lemma document_saveToHistory k c s :
  document (saveToHistory k c s) = document s.
Proof. reflexivity. Qed.

Lemma length_history_saveToHistory k c s :
  (List.length (history (saveToHistory k c s)) <= 50)%nat.
Proof.
  unfold saveToHistory. simpl.
  change (-50) with (- Z.of_nat 50).
  rewrite slice_from_last by lia.
  rewrite length_keepLast. lia.
Qed.

Lemma commits_snoc cs c s :
  commits (cs ++ [c]) s = commit c (commits cs s).
Proof. unfold commits. now rewrite fold_left_app. Qed.

(** Closed form of a run of commits from the initial state. *)
Lemma commits_initial now cs :
  history (commits cs (initialState now)) = keepLast 50 cs
  /\ historyIndex (commits cs (initialState now))
     = Z.of_nat (List.length cs) - 1.
Proof.
  induction cs as [|c cs [IHh IHi]] using rev_ind.
  - split; reflexivity.
  - rewrite commits_snoc. unfold commit. split.
    + rewrite history_saveToHistory by lia.
      rewrite IHh, IHi.
      rewrite firstn_all2 by (rewrite length_keepLast; lia).
      apply keepLast_snoc. lia.
    + rewrite historyIndex_saveToHistory, IHi, length_app. simpl. lia.
Qed.

Lemma canRedo_saveToHistory k c s :
  -1 <= k <= historyIndex s -> canRedo (saveToHistory k c s) = false.
Proof.
  intros H. unfold canRedo.
  rewrite historyIndex_saveToHistory, history_saveToHistory by lia.
  rewrite length_keepLast, length_app, length_firstn.
  change (List.length [c]) with 1%nat.
  apply negb_false_iff, Z.geb_le. lia.
Qed.

Lemma canRedo_commit c s :
  -1 <= historyIndex s -> canRedo (commit c s) = false.
Proof. intros H. unfold commit. apply canRedo_saveToHistory. lia. Qed.

Lemma redo_blocked s : canRedo s = false -> redo s = s.
Proof.
  unfold canRedo, redo. intros H.
  apply negb_false_iff, Z.geb_le in H.
  destruct (historyIndex s <? Z.of_nat (List.length (history s)) - 1) eqn:E.
  - apply Z.ltb_lt in E. lia.
  - reflexivity.
Qed.

Lemma document_eta (d : Document) :
  {| title := title d; content := content d;
     lastModified := lastModified d; version := version d |} = d.
Proof. now destruct d. Qed.

(** *** Claims on the history log *)

(** C1 (the code breaks the index invariant at capacity).  Fifty-one
    edits, each followed by its quiet interval, leave the log with 50
    entries and [historyIndex = 50]: the commit that evicts the oldest
    entry still increments the index, so it is no longer below the length
    and no longer [length - 1]. *)
Theorem C1_index_leaves_log_at_capacity :
  exists s,
    run (flat_map typeAndSettle (repeat "x" 51)) (initialState "t") = Some s
    /\ List.length (history s) = 50%nat
    /\ historyIndex s = 50
    /\ ~ (historyIndex s < Z.of_nat (List.length (history s))).
Proof.
  eexists. split; [vm_compute; reflexivity|].
  repeat split; vm_compute; congruence.
Qed.

(** The index after [n] commits from the initial state is [n - 1] while
    the log holds [min n 50] entries: the invariant holds up to 50 commits
    and fails from the 51st on. *)
Lemma index_after_commits now cs :
  let s := commits cs (initialState now) in
  historyIndex s = Z.of_nat (List.length cs) - 1
  /\ List.length (history s) = Nat.min 50 (List.length cs).
Proof.
  destruct (commits_initial now cs) as [Hh Hi]. cbv zeta. split.
  - exact Hi.
  - rewrite Hh. apply length_keepLast.
Qed.

(** After 52 commits an undo reads [history[50]] of a 50-entry log: the
    document content becomes [undefined]. *)
Lemma undo_past_the_log :
  content (document (undo (commits (repeat "x" 52) (initialState "t"))))
  = None.
Proof. vm_compute. reflexivity. Qed.

(** The cap is an invariant of every run of events. *)
Lemma history_capped_step e s s' :
  (List.length (history s) <= 50)%nat ->
  step e s = Some s' ->
  (List.length (history s') <= 50)%nat.
Proof.
  intros Hs. destruct e; simpl.
  - now intros [= <-].
  - intros [= <-]. unfold typingTimeoutFires.
    destruct (typingTimeout s); [apply length_history_saveToHistory|exact Hs].
  - now intros [= <-].
  - unfold handleTextSelection.
    destruct (content (document s)); [now intros [= <-]|discriminate].
  - unfold applyFormatting.
    destruct (String.eqb (selectedText s) EmptyString); [now intros [= <-]|].
    destruct (content (document s)); [now intros [= <-]|discriminate].
  - intros [= <-]. unfold undo. now destruct (0 <? historyIndex s).
  - intros [= <-]. unfold redo.
    now destruct (historyIndex s <? Z.of_nat (List.length (history s)) - 1).
  - intros [= <-]. apply length_history_saveToHistory.
  - unfold remoteCursorTick.
    destruct (Qle_bool r1 _); [now intros [= <-]|].
    match goal with
    | |- (if ?g then _ else _) = _ -> _ => destruct g
    end; [|now intros [= <-]].
    destruct (content (document s)); [|discriminate].
    match goal with
    | |- match ?x with Some _ => _ | None => _ end = _ -> _ => destruct x
    end; [now intros [= <-]|discriminate].
Qed.

Lemma history_capped_run es :
  forall s s',
    (List.length (history s) <= 50)%nat ->
    run es s = Some s' ->
    (List.length (history s') <= 50)%nat.
Proof.
  induction es as [|e es IH]; simpl; intros s s' Hs.
  - now intros [= <-].
  - destruct (step e s) as [s1|] eqn:E; [|discriminate].
    apply IH. now apply (history_capped_step e s).
Qed.

(** C2.  Whatever state and closure a commit runs in, the log it leaves
    has at most 50 entries; a sequence of commits from the initial state
    leaves exactly the last 50 contents committed, in order: the entries
    evicted are the oldest ones. *)
Theorem C2_history_capped_oldest_evicted :
  (forall k c s,
      (List.length (history (saveToHistory k c s)) <= 50)%nat)
  /\ (forall now cs,
      (List.length (history (commits cs (initialState now))) <= 50)%nat
      /\ history (commits cs (initialState now))
         = skipn (List.length cs - 50) cs).
Proof.
  split.
  - apply length_history_saveToHistory.
  - intros now cs. destruct (commits_initial now cs) as [Hh _].
    rewrite Hh. split.
    + rewrite length_keepLast. lia.
    + reflexivity.
Qed.

(** A change followed by its timeout, with no event in between, is a
    commit of the new content: the closure captured the current index. *)
Lemma settled_edit_commits c p now s :
  history (typingTimeoutFires (handleContentChange c p now s))
  = history (commit c s)
  /\ historyIndex (typingTimeoutFires (handleContentChange c p now s))
     = historyIndex (commit c s)
  /\ content (document (typingTimeoutFires (handleContentChange c p now s)))
     = Some c.
Proof. repeat split. Qed.

(** A commit made with the current index keeps the entries up to it,
    drops the ones after it and appends the new content (then keeps the
    last 50); redo is unavailable right after it.  In the scenario commit
    "a", "ab", "abc", undo, undo, commit "az" the log is ["a"; "az"] and
    redo does nothing; the same holds when the commits are edits followed
    by their quiet interval. *)
Lemma commit_with_current_index_clears_redo :
  (forall s c,
      -1 <= historyIndex s ->
      history (commit c s)
      = keepLast 50
          (firstn (Z.to_nat (historyIndex s + 1)) (history s) ++ [c])%list
      /\ (historyIndex s + 1 < Z.of_nat (List.length (history s)) <= 50 ->
          history (commit c s)
          = (firstn (Z.to_nat (historyIndex s + 1)) (history s) ++ [c])%list)
      /\ canRedo (commit c s) = false
      /\ redo (commit c s) = commit c s)
  /\ (forall now,
      let s3 := commits ["a"; "ab"; "abc"] (initialState now) in
      historyIndex s3 = 2
      /\ content (document (undo s3)) = Some "ab"
      /\ content (document (undo (undo s3))) = Some "a"
      /\ history (commit "az" (undo (undo s3))) = ["a"; "az"]
      /\ redo (commit "az" (undo (undo s3))) = commit "az" (undo (undo s3)))
  /\ (exists s,
      run editAfterTwoUndos (initialState "t") = Some s
      /\ history s = ["a"; "az"]
      /\ historyIndex s = 1
      /\ canRedo s = false
      /\ run [RedoClick] s = Some s).
Proof.
  split; [|split].
  - intros s c H.
    assert (Hh := history_saveToHistory (historyIndex s) c s H).
    fold (commit c s) in Hh.
    repeat split.
    + exact Hh.
    + intros Hlen. rewrite Hh. apply keepLast_short.
      rewrite length_app, length_firstn.
      change (List.length [c]) with 1%nat. lia.
    + now apply canRedo_commit.
    + apply redo_blocked. now apply canRedo_commit.
  - intros now. cbv zeta. repeat apply conj; vm_compute; reflexivity.
  - eexists. split; [vm_compute; reflexivity|].
    repeat apply conj; vm_compute; reflexivity.
Qed.

(** C5 (the code keeps the later entries when the save was armed before
    the undo).  "a" and "ab" are saved, "abc" is typed, undo is clicked
    within the quiet interval (index 0, content "a"), and the timeout
    then fires: the save cuts the log after the index it captured, 1, not
    after the current index 0, so "ab" stays, "abc" is appended, the
    index becomes 1 and redo is enabled and shows "abc". *)
Theorem C5_save_armed_before_undo_keeps_redo :
  exists s0 s,
    run undoInsideQuietInterval (initialState "t") = Some s0
    /\ history s0 = ["a"; "ab"]
    /\ historyIndex s0 = 0
    /\ content (document s0) = Some "a"
    /\ run [TypingTimeout] s0 = Some s
    /\ history s = ["a"; "ab"; "abc"]
    /\ history s <> ["a"; "abc"]
    /\ historyIndex s = 1
    /\ canRedo s = true
    /\ content (document (redo s)) = Some "abc"
    /\ redo s <> s.
Proof.
  eexists. eexists.
  split; [vm_compute; reflexivity|].
  do 3 (split; [vm_compute; reflexivity|]).
  split; [vm_compute; reflexivity|].
  split; [vm_compute; reflexivity|].
  split; [vm_compute; discriminate|].
  do 3 (split; [vm_compute; reflexivity|]).
  vm_compute. discriminate.
Qed.

Lemma commit_with_current_index_example :
  let s := undo (undo (commits ["a"; "ab"; "abc"] (initialState "t"))) in
  -1 <= historyIndex s
  /\ historyIndex s + 1 < Z.of_nat (List.length (history s)) <= 50
  /\ history (commit "az" s) = ["a"; "az"]
  /\ redo (commit "az" s) = commit "az" s.
Proof.
  intros s.
  assert (H0 : -1 <= historyIndex s) by (vm_compute; congruence).
  assert (H1 : historyIndex s + 1 < Z.of_nat (List.length (history s)) <= 50)
    by (vm_compute; split; congruence).
  destruct commit_with_current_index_clears_redo as [G _].
  destruct (G s "az" H0) as (_ & Hcut & _ & Hredo).
  split; [exact H0|]. split; [exact H1|]. split.
  - rewrite (Hcut H1). vm_compute. reflexivity.
  - exact Hredo.
Defined.

(** C6, as amended.  Where undo is possible and the index is inside the
    log, undo followed by redo puts the index back and sets the content
    to the current entry [history[historyIndex]]; the document is
    restored exactly when its content was that entry before the undo. *)
Theorem C6_undo_redo_restores_current_entry s :
  0 < historyIndex s < Z.of_nat (List.length (history s)) ->
  historyIndex (redo (undo s)) = historyIndex s
  /\ history (redo (undo s)) = history s
  /\ content (document (redo (undo s)))
     = Js.index (history s) (historyIndex s)
  /\ (content (document s) = Js.index (history s) (historyIndex s) ->
      document (redo (undo s)) = document s).
Proof.
  intros [H0 H1]. unfold undo.
  destruct (0 <? historyIndex s) eqn:E; [|apply Z.ltb_ge in E; lia].
  unfold redo. simpl.
  destruct (historyIndex s - 1 <? Z.of_nat (List.length (history s)) - 1)
    eqn:E'; [|apply Z.ltb_ge in E'; lia].
  simpl. rewrite Z.sub_add. repeat split.
  intros Hc. rewrite <- Hc. apply document_eta.
Qed.

(** C6 as stated fails: at an index strictly inside the log, undo then
    redo leaves "ab", not the "**ab**" shown before the undo. *)
Lemma C6_counterexample :
  exists s,
    run formattedAfterUndo (initialState "t") = Some s
    /\ 0 < historyIndex s < Z.of_nat (List.length (history s)) - 1
    /\ content (document s) = Some "**ab**"
    /\ content (document (redo (undo s))) = Some "ab"
    /\ content (document (redo (undo s))) <> content (document s).
Proof.
  eexists. split; [vm_compute; reflexivity|].
  repeat split; vm_compute; congruence.
Qed.

Lemma C6_undo_redo_restores_current_entry_witness :
  let s := commits ["a"; "ab"; "abc"] (initialState "t") in
  0 < historyIndex s < Z.of_nat (List.length (history s))
  /\ content (document (redo (undo s))) = Some "abc".
Proof.
  intros s.
  assert (H : 0 < historyIndex s < Z.of_nat (List.length (history s)))
    by (vm_compute; split; congruence).
  split; [exact H|].
  destruct (C6_undo_redo_restores_current_entry s H) as (_ & _ & Hc & _).
  rewrite Hc. vm_compute. reflexivity.
Defined.

(** ** Cursor positions *)

Lemma len_nonneg s : 0 <= Js.len s.
Proof. unfold Js.len. lia. Qed.

Lemma substring_prefix c p :
  Js.substring c 0 p = Js.take (Z.to_nat (Js.clamp p (Js.len c))) c.
Proof.
  pose proof (len_nonneg c) as Hl.
  unfold Js.substring, Js.clamp.
  replace (Z.min (Z.max 0 0) (Js.len c)) with 0 by lia.
  set (b := Z.min (Z.max p 0) (Js.len c)).
  replace (Z.min 0 b) with 0 by lia.
  replace (Z.max 0 b - 0) with b by lia.
  reflexivity.
Qed.

Lemma take_all s : Js.take (String.length s) s = s.
Proof. induction s as [|c r IH]; simpl; [reflexivity|now rewrite IH]. Qed.

Section Split.

Lemma split_LF_cons s : exists seg segs, Js.split_LF s = seg :: segs.
Proof.
  destruct s as [|c r]; simpl; [eauto|].
  destruct (Ascii.eqb c Js.LF); [eauto|].
  destruct (Js.split_LF r); eauto.
Qed.

Lemma join_split s : join_LF (Js.split_LF s) = s.
Proof.
  induction s as [|c r IH]; [reflexivity|].
  simpl Js.split_LF.
  destruct (split_LF_cons r) as (seg & segs & E).
  rewrite E in *.
  destruct (Ascii.eqb c Js.LF) eqn:Ec.
  - apply Ascii.eqb_eq in Ec. subst c.
    change (join_LF (EmptyString :: seg :: segs))
      with (String Js.LF (join_LF (seg :: segs))).
    now rewrite IH.
  - rewrite <- IH. destruct segs; reflexivity.
Qed.

Lemma split_no_LF s : Forall (fun seg => no_LF seg = true) (Js.split_LF s).
Proof.
  induction s as [|c r IH]; simpl.
  - repeat constructor.
  - destruct (Ascii.eqb c Js.LF) eqn:Ec.
    + constructor; [reflexivity|assumption].
    + destruct (Js.split_LF r) as [|seg segs].
      * repeat constructor. unfold no_LF. simpl. now rewrite Ec.
      * inversion IH as [|? ? Hseg Hsegs]; subst.
        constructor; [|assumption].
        unfold no_LF in *. simpl. now rewrite Ec.
Qed.

Lemma length_split s :
  List.length (Js.split_LF s) = S (count_LF s).
Proof.
  induction s as [|c r IH]; simpl; [reflexivity|].
  destruct (Ascii.eqb c Js.LF); simpl.
  - now rewrite IH.
  - destruct (Js.split_LF r); simpl in *; [discriminate|assumption].
Qed.

Lemma no_LF_append a b :
  no_LF (a ++ b) = no_LF a && no_LF b.
Proof.
  unfold no_LF. induction a as [|c r IH]; simpl; [reflexivity|].
  now rewrite IH, andb_assoc.
Qed.

Lemma split_segment seg rest :
  no_LF seg = true ->
  Js.split_LF (seg ++ String Js.LF rest) = seg :: Js.split_LF rest.
Proof.
  intros H. induction seg as [|c r IH]; simpl.
  - reflexivity.
  - unfold no_LF in H. simpl in H. apply andb_true_iff in H as [Hc Hr].
    apply negb_true_iff in Hc. rewrite Hc.
    fold (no_LF r) in Hr. now rewrite (IH Hr).
Qed.

Lemma split_one seg : no_LF seg = true -> Js.split_LF seg = [seg].
Proof.
  intros H. induction seg as [|c r IH]; simpl; [reflexivity|].
  unfold no_LF in H. simpl in H. apply andb_true_iff in H as [Hc Hr].
  apply negb_true_iff in Hc. rewrite Hc.
  fold (no_LF r) in Hr. now rewrite (IH Hr).
Qed.

(** The segments are determined by the text: a non-empty list of
    line-feed-free strings is the split of its join. *)
Lemma split_join segs :
  segs <> [] ->
  Forall (fun seg => no_LF seg = true) segs ->
  Js.split_LF (join_LF segs) = segs.
Proof.
  induction segs as [|seg rest IH]; [congruence|].
  intros _ Hall. inversion Hall as [|? ? Hseg Hrest]; subst.
  destruct rest as [|seg' rest'].
  - simpl. now apply split_one.
  - change (join_LF (seg :: seg' :: rest'))
      with (seg ++ String Js.LF (join_LF (seg' :: rest'))).
    rewrite split_segment by assumption.
    f_equal. apply IH; [discriminate|assumption].
Qed.

End Split.

Lemma getCursorPosition_in_range c offset :
  0 <= offset <= Js.len c ->
  getCursorPosition offset c
  = let lines := Js.split_LF (Js.take (Z.to_nat offset) c) in
    {| line := Z.of_nat (List.length lines);
       column := Js.len (lastSegment lines) + 1 |}.
Proof.
  intros H. unfold getCursorPosition. rewrite substring_prefix.
  unfold Js.clamp. now replace (Z.min (Z.max offset 0) (Js.len c))
    with offset by lia.
Qed.

(** C7.  For an offset within the content, the prefix of that length is
    the join of line-feed-free segments, [line] is their number, which is
    one more than the number of line feeds in the prefix, and [column] is
    the length of the last segment plus one.  At offset 0 of the empty
    content the position is (1, 1); at offset 5 of "ab\ncd" it is
    (2, 3). *)
Theorem C7_position_counts_segments :
  (forall c offset,
      0 <= offset <= Js.len c ->
      exists segs,
        segs <> []
        /\ join_LF segs = Js.take (Z.to_nat offset) c
        /\ Forall (fun seg => no_LF seg = true) segs
        /\ line (getCursorPosition offset c) = Z.of_nat (List.length segs)
        /\ line (getCursorPosition offset c)
           = 1 + Z.of_nat (count_LF (Js.take (Z.to_nat offset) c))
        /\ column (getCursorPosition offset c)
           = Js.len (List.last segs EmptyString) + 1)
  /\ getCursorPosition 0 EmptyString = {| line := 1; column := 1 |}
  /\ getCursorPosition 5 ab_LF_cd = {| line := 2; column := 3 |}.
Proof.
  split; [|split; reflexivity].
  intros c offset H.
  rewrite getCursorPosition_in_range by assumption. cbv zeta.
  exists (Js.split_LF (Js.take (Z.to_nat offset) c)).
  destruct (split_LF_cons (Js.take (Z.to_nat offset) c)) as (seg & segs & E).
  split; [rewrite E; discriminate|].
  split; [apply join_split|].
  split; [apply split_no_LF|].
  split; [reflexivity|].
  split; [|reflexivity].
  cbn [line]. rewrite length_split. lia.
Qed.

Lemma C7_position_counts_segments_witness :
  0 <= 5 <= Js.len ab_LF_cd
  /\ exists segs,
       join_LF segs = Js.take (Z.to_nat 5) ab_LF_cd
       /\ line (getCursorPosition 5 ab_LF_cd) = Z.of_nat (List.length segs)
       /\ column (getCursorPosition 5 ab_LF_cd)
          = Js.len (List.last segs EmptyString) + 1.
Proof.
  assert (H : 0 <= 5 <= Js.len ab_LF_cd) by (vm_compute; split; congruence).
  split; [exact H|].
  destruct C7_position_counts_segments as [G _].
  destruct (G ab_LF_cd 5 H) as (segs & _ & Hj & _ & Hl & _ & Hc).
  exists segs. repeat split; assumption.
Defined.

(** C8.  An offset beyond the end of the content reads as the position
    of the end of the content; [getCursorPosition] is a total function,
    so the read never fails. *)
Theorem C8_stale_offset_reads_as_end c offset :
  Js.len c < offset ->
  getCursorPosition offset c = getCursorPosition (Js.len c) c.
Proof.
  intros H. pose proof (len_nonneg c) as Hl.
  unfold getCursorPosition. rewrite !substring_prefix.
  unfold Js.clamp.
  replace (Z.min (Z.max offset 0) (Js.len c)) with (Js.len c) by lia.
  replace (Z.min (Z.max (Js.len c) 0) (Js.len c)) with (Js.len c) by lia.
  reflexivity.
Qed.

Lemma C8_stale_offset_reads_as_end_witness :
  Js.len "ab" < 32
  /\ getCursorPosition 32 "ab" = getCursorPosition (Js.len "ab") "ab".
Proof.
  assert (H : Js.len "ab" < 32) by (vm_compute; reflexivity).
  split; [exact H|]. exact (C8_stale_offset_reads_as_end "ab" 32 H).
Defined.

(** ** The cursor registry *)

Lemma nth_error_mapCursor uid pos us i u :
  nth_error us i = Some u ->
  nth_error (mapCursor uid pos us) i
  = Some (if id u =? uid then withCursor pos u else u).
Proof.
  intros H. unfold mapCursor. rewrite nth_error_map, H. reflexivity.
Qed.

Lemma In_mapCursor uid pos us u' :
  In u' (mapCursor uid pos us) -> id u' = uid -> cursor u' = pos.
Proof.
  unfold mapCursor. intros Hin Hid.
  apply in_map_iff in Hin as (u & Hu & _).
  destruct (id u =? uid) eqn:E.
  - now subst u'.
  - subst u'. apply Z.eqb_neq in E. contradiction.
Qed.

(** *** The product of a random number and a length *)

Lemma pow2_pos k : 0 < Js.pow2 k.
Proof. unfold Js.pow2. apply Z.pow_pos_nonneg; lia. Qed.

Lemma pow2_nonneg_arg k : 0 <= k -> Js.pow2 k = 2 ^ k.
Proof. intros H. unfold Js.pow2. now rewrite Z.max_l by lia. Qed.

Lemma pow2_nonpos_arg k : k <= 0 -> Js.pow2 k = 1.
Proof. intros H. unfold Js.pow2. now rewrite Z.max_r by lia. Qed.

Lemma roundHalfEven_bounds n d m :
  0 < d -> 0 <= n -> n <= m * d ->
  0 <= Js.roundHalfEven n d <= m.
Proof.
  intros Hd Hn Hm. unfold Js.roundHalfEven.
  pose proof (Z.div_mod n d ltac:(lia)) as Hdm.
  pose proof (Z.mod_pos_bound n d Hd) as Hr.
  assert (Hf : 0 <= n / d) by (apply Z.div_pos; lia).
  assert (Hfm : n / d <= m) by nia.
  destruct (2 * (n mod d) ?= d) eqn:E.
  - apply Z.compare_eq in E.
    destruct (Z.even (n / d)); [lia|]. nia.
  - lia.
  - apply Z.compare_gt_iff in E. nia.
Qed.

(** A quotient below [2 ^ 53] lies in a binade of at most 52. *)
Lemma binade_below_53 a b :
  0 < a -> 0 < b -> a < 2 ^ 53 * b -> Js.binade a b <= 52.
Proof.
  intros Ha Hb Hab. unfold Js.binade.
  pose proof (Z.log2_spec a Ha) as [Hla _].
  pose proof (Z.log2_spec b Hb) as [_ Hlb].
  pose proof (Z.log2_nonneg a) as Hna.
  pose proof (Z.log2_nonneg b) as Hnb.
  set (la := Z.log2 a) in *. set (lb := Z.log2 b) in *.
  assert (He : la - lb <= 53).
  { destruct (Z.le_gt_cases (la - lb) 53) as [H|H]; [exact H|].
    exfalso.
    assert (Hp : 2 ^ (lb + 54) <= 2 ^ la)
      by (apply Z.pow_le_mono_r; lia).
    replace (lb + 54) with (53 + Z.succ lb) in Hp by lia.
    rewrite Z.pow_add_r in Hp by lia.
    assert (H53 : 0 < 2 ^ 53) by (apply Z.pow_pos_nonneg; lia).
    nia. }
  destruct (Z.eq_dec (la - lb) 53) as [E|E].
  - rewrite E. rewrite pow2_nonneg_arg, pow2_nonpos_arg by lia.
    destruct (2 ^ 53 * b <=? a * 1) eqn:T; [apply Z.leb_le in T; lia|lia].
  - destruct (Js.pow2 (la - lb) * b <=? a * Js.pow2 (- (la - lb))); lia.
Qed.

(** [Math.floor(r * n)] for a number [r] of [0, 1) and a length [n]
    below [2 ^ 53]: the rounded product does not pass [n]. *)
Lemma floor_times_in_range (r : Q) (n : Z) :
  (0 <= r)%Q -> (r < 1)%Q -> 0 <= n < 2 ^ 53 ->
  0 <= Js.floor (Js.times r (inject_Z n)) <= n.
Proof.
  destruct r as [p q]. unfold Qle, Qlt. cbn [Qnum Qden].
  intros H0 H1 Hn.
  assert (Hp : 0 <= p < Z.pos q) by lia. clear H0 H1.
  unfold Js.floor, Js.times, Js.nearestDouble, inject_Z, Qmult.
  cbn [Qnum Qden]. rewrite Pos.mul_1_r.
  assert (Ha : 0 <= p * n) by nia.
  rewrite (Z.abs_eq (p * n)) by exact Ha.
  destruct (p * n =? 0) eqn:E0;
    [unfold Qfloor; rewrite Z.div_0_l by lia; lia|].
  apply Z.eqb_neq in E0.
  assert (Hpos : 0 < p * n) by lia.
  rewrite (Z.sgn_pos (p * n)) by exact Hpos.
  assert (Hlt : p * n < 2 ^ 53 * Z.pos q).
  { assert (0 < 2 ^ 53) by (apply Z.pow_pos_nonneg; lia). nia. }
  pose proof (binade_below_53 (p * n) (Z.pos q) Hpos ltac:(lia) Hlt) as Hb.
  set (j := 52 - Z.max (Js.binade (p * n) (Z.pos q)) (-1022)).
  assert (Hj : 0 <= j) by (unfold j; lia).
  rewrite (pow2_nonpos_arg (- j)) by lia.
  rewrite (pow2_nonneg_arg j) by exact Hj.
  assert (H2j : 0 < 2 ^ j) by (apply Z.pow_pos_nonneg; lia).
  pose proof (roundHalfEven_bounds (p * n * 2 ^ j) (Z.pos q * 1)
                (n * 2 ^ j) ltac:(lia) ltac:(nia) ltac:(nia)) as [Hk0 Hk1].
  set (k := Js.roundHalfEven (p * n * 2 ^ j) (Z.pos q * 1)) in *.
  unfold Qfloor. rewrite Z2Pos.id by exact H2j.
  replace (1 * k * 1) with k by lia.
  split.
  - apply Z.div_pos; lia.
  - rewrite <- (Z.div_mul n (2 ^ j)) by lia.
    apply Z.div_le_mono; lia.
Qed.

(** The rounding is that of the double product: for the random number
    5731854071198813 / 2 ^ 53 and the length 11 the exact product is
    below 7 and the double product is 7; the literal [0.7] is
    3152519739159347 / 2 ^ 52. *)
Lemma times_rounds_to_nearest :
  Js.floor (Js.times (5731854071198813 # 9007199254740992) (inject_Z 11)) = 7
  /\ Qfloor ((5731854071198813 # 9007199254740992) * inject_Z 11) = 6
  /\ Qred (Js.nearestDouble (7 # 10))
     = 3152519739159347 # 4503599627370496.
Proof. repeat split; vm_compute; reflexivity. Qed.

(** C3, as amended.  A cursor update stores the offset it is given, with
    no clamping: after a content change every user with id 1 holds the
    event's [selectionStart] and every other user is untouched, so the
    stored value is within the new content exactly when the offset passed
    is; a simulated remote update stores
    [Math.floor(Math.random() * content.length)], the floor of the
    product rounded to a double, which lies within the content for a
    random number in [0, 1) and a length below [2 ^ 53]. *)
Theorem C3_cursor_update_stores_offset_given :
  (forall v p now s i u,
      nth_error (users s) i = Some u ->
      nth_error (users (handleContentChange v p now s)) i
      = Some (if id u =? 1 then withCursor p u else u))
  /\ (forall v p now s u',
      In u' (users (handleContentChange v p now s)) ->
      id u' = 1 ->
      cursor u' = p
      /\ (0 <= p <= Js.len v -> 0 <= cursor u' <= Js.len v))
  /\ (forall r1 r2 r3 s s' c i u,
      (0 <= r3)%Q -> (r3 < 1)%Q ->
      Js.len c < 2 ^ 53 ->
      content (document s) = Some c ->
      remoteCursorTick r1 r2 r3 s = Some s' ->
      nth_error (users s) i = Some u ->
      nth_error (users s') i = Some u
      \/ (nth_error (users s') i
          = Some (withCursor
                    (Js.floor (Js.times r3 (inject_Z (Js.len c)))) u)
          /\ 0 <= Js.floor (Js.times r3 (inject_Z (Js.len c)))
             <= Js.len c)).
Proof.
  split; [|split].
  - intros v p now s i u H. simpl. now apply nth_error_mapCursor.
  - intros v p now s u' Hin Hid. simpl in Hin.
    pose proof (In_mapCursor _ _ _ _ Hin Hid) as Hc.
    split; [assumption|]. now rewrite Hc.
  - intros r1 r2 r3 s s' c i u H0 H1 Hlen Hc Htick Hu.
    unfold remoteCursorTick in Htick.
    destruct (Qle_bool r1 _); [injection Htick as <-; now left|].
    match type of Htick with
    | (if ?g then _ else _) = _ => destruct g
    end; [|injection Htick as <-; now left].
    rewrite Hc in Htick.
    match type of Htick with
    | match ?x with Some _ => _ | None => _ end = _ =>
        destruct x as [randomUser|]; [|discriminate]
    end.
    injection Htick as <-. cbn [users setUsers].
    rewrite (nth_error_mapCursor _ _ _ _ _ Hu).
    destruct (id u =? id randomUser).
    + right. split; [reflexivity|].
      apply floor_times_in_range; [assumption..|].
      pose proof (len_nonneg c). lia.
    + now left.
Qed.

(** A content change to "hello world" and a tick whose random numbers
    are the doubles 7/8, 0 and 11/16: the gate passes and Alice is
    picked. *)
Lemma C3_cursor_update_stores_offset_given_witness :
  let s0 := handleContentChange "hello world" 11 "t1" (initialState "t0") in
  let alice := {| id := 2; name := "Alice"; color := "#EF4444";
                  cursor := 15; active := true |} in
  (exists u, nth_error (users (initialState "t0")) 0 = Some u
             /\ nth_error (users s0) 0 = Some (withCursor 11 u))
  /\ (forall u', In u' (users s0) -> id u' = 1 -> 0 <= cursor u' <= 11)
  /\ (0 <= 11 # 16)%Q /\ (11 # 16 < 1)%Q
  /\ Js.len "hello world" < 2 ^ 53
  /\ nth_error (users s0) 1 = Some alice
  /\ exists s',
       remoteCursorTick (7 # 8) 0 (11 # 16) s0 = Some s'
       /\ (nth_error (users s') 1 = Some alice
           \/ (nth_error (users s') 1
                = Some (withCursor
                          (Js.floor
                             (Js.times (11 # 16)
                                (inject_Z (Js.len "hello world")))) alice)
               /\ 0 <= Js.floor
                         (Js.times (11 # 16)
                            (inject_Z (Js.len "hello world")))
                  <= Js.len "hello world")).
Proof.
  intros s0 alice.
  destruct C3_cursor_update_stores_offset_given as (G1 & G2 & G3).
  split.
  { eexists. split; [reflexivity|].
    exact (G1 "hello world" 11 "t1" (initialState "t0") 0%nat _ eq_refl). }
  split.
  { intros u' Hin Hid.
    destruct (G2 "hello world" 11 "t1" (initialState "t0") u' Hin Hid)
      as [_ Hr].
    apply Hr. vm_compute. split; congruence. }
  assert (H0 : (0 <= 11 # 16)%Q) by (vm_compute; congruence).
  assert (H1 : (11 # 16 < 1)%Q) by (vm_compute; reflexivity).
  assert (H2 : Js.len "hello world" < 2 ^ 53) by (vm_compute; reflexivity).
  assert (Hu : nth_error (users s0) 1 = Some alice) by reflexivity.
  split; [exact H0|]. split; [exact H1|]. split; [exact H2|].
  split; [exact Hu|].
  destruct (remoteCursorTick (7 # 8) 0 (11 # 16) s0) as [s'|] eqn:Et;
    [|vm_compute in Et; discriminate].
  exists s'. split; [reflexivity|].
  exact (G3 (7 # 8) 0%Q (11 # 16) s0 s' "hello world" 1%nat alice
           H0 H1 H2 eq_refl Et Hu).
Defined.

(** The tick of that witness stores offset 7 for Alice. *)
Lemma tick_over_hello_world :
  option_map (fun s => map cursor (users s))
    (remoteCursorTick (7 # 8) 0 (11 # 16)
       (handleContentChange "hello world" 11 "t1" (initialState "t0")))
  = Some [11; 7; 32].
Proof. vm_compute. reflexivity. Qed.

(** C3 as stated fails: the registry of the initial state holds offset 15
    for Alice while the content is empty, and after the content shrinks
    from "hello world" to "hi" a remote cursor set to 7 in between is
    still 7. *)
Lemma C3_counterexample :
  (exists u c,
      In u (users (initialState "t0"))
      /\ content (document (initialState "t0")) = Some c
      /\ name u = "Alice" /\ cursor u = 15 /\ Js.len c = 0
      /\ Js.len c < cursor u)
  /\ (exists s u c,
      run [ContentChange "hello world" 11 "t1";
           RemoteTick (7 # 8) 0 (11 # 16);
           ContentChange "hi" 2 "t2"] (initialState "t0") = Some s
      /\ In u (users s)
      /\ content (document s) = Some c
      /\ cursor u = 7 /\ Js.len c = 2
      /\ Js.len c < cursor u).
Proof.
  split.
  - exists {| id := 2; name := "Alice"; color := "#EF4444"; cursor := 15;
              active := true |}, EmptyString.
    repeat split; simpl; auto.
  - eexists. exists {| id := 2; name := "Alice"; color := "#EF4444";
                      cursor := 7; active := true |}, "hi".
    split; [vm_compute; reflexivity|].
    repeat split; simpl; auto.
Qed.

(** ** The document store *)

Section Version.

Implicit Types (s : State) (e : Event).

Lemma version_undo s : versionOf (undo s) = versionOf s.
Proof. unfold versionOf, undo. now destruct (0 <? historyIndex s). Qed.

Lemma version_redo s : versionOf (redo s) = versionOf s.
Proof.
  unfold versionOf, redo.
  now destruct (historyIndex s <? Z.of_nat (List.length (history s)) - 1).
Qed.

Lemma version_typingTimeoutFires s : versionOf (typingTimeoutFires s) = versionOf s.
Proof. unfold versionOf, typingTimeoutFires. now destruct (typingTimeout s). Qed.

Lemma version_handleTextSelection a b s s' :
  handleTextSelection a b s = Some s' -> versionOf s' = versionOf s.
Proof.
  unfold versionOf, handleTextSelection.
  destruct (content (document s)); [|discriminate].
  now intros [= <-].
Qed.

Lemma version_applyFormatting f a b s s' :
  applyFormatting f a b s = Some s' ->
  versionOf s' = versionOf s /\ lastModified (document s') = lastModified (document s).
Proof.
  unfold versionOf, applyFormatting.
  destruct (String.eqb (selectedText s) EmptyString); [now intros [= <-]|].
  destruct (content (document s)); [|discriminate].
  now intros [= <-].
Qed.

Lemma version_remoteCursorTick r1 r2 r3 s s' :
  remoteCursorTick r1 r2 r3 s = Some s' -> versionOf s' = versionOf s.
Proof.
  unfold versionOf, remoteCursorTick.
  destruct (Qle_bool r1 _); [now intros [= <-]|].
  match goal with
  | |- (if ?g then _ else _) = _ -> _ => destruct g
  end; [|now intros [= <-]].
  destruct (content (document s)); [|discriminate].
  match goal with
  | |- match ?x with Some _ => _ | None => _ end = _ -> _ => destruct x
  end; [|discriminate].
  now intros [= <-].
Qed.

Lemma version_step e s s' : step e s = Some s' -> versionOf s <= versionOf s'.
Proof.
  destruct e; simpl.
  - intros [= <-]. unfold versionOf. simpl. lia.
  - intros [= <-]. rewrite version_typingTimeoutFires. lia.
  - intros [= <-]. unfold versionOf. simpl. lia.
  - intros H. apply version_handleTextSelection in H. lia.
  - intros H. apply version_applyFormatting in H. lia.
  - intros [= <-]. rewrite version_undo. lia.
  - intros [= <-]. rewrite version_redo. lia.
  - intros [= <-]. unfold versionOf. simpl. lia.
  - intros H. apply version_remoteCursorTick in H. lia.
Qed.

Lemma version_run es : forall s s', run es s = Some s' -> versionOf s <= versionOf s'.
Proof.
  induction es as [|e es IH]; simpl; intros s s'.
  - intros [= <-]. lia.
  - destruct (step e s) as [s1|] eqn:E; [|discriminate].
    intros H. apply version_step in E. apply IH in H. lia.
Qed.

End Version.

(** C4, as amended.  The version never decreases, whatever the events: a
    content change and a file load each add exactly one (the content
    change also sets [lastModified] to the current time); formatting,
    undo and redo replace the content and leave the version, and
    formatting also [lastModified], as they were. *)
Theorem C4_version_never_decreases :
  (forall c p now s,
      version (document (handleContentChange c p now s))
      = version (document s) + 1
      /\ lastModified (document (handleContentChange c p now s)) = now)
  /\ (forall k fileName text s,
      version (document (readerOnload k fileName text s))
      = version (document s) + 1)
  /\ (forall f a b s s',
      applyFormatting f a b s = Some s' ->
      version (document s') = version (document s)
      /\ lastModified (document s') = lastModified (document s))
  /\ (forall s,
      version (document (undo s)) = version (document s)
      /\ version (document (redo s)) = version (document s))
  /\ (forall es s s',
      run es s = Some s' ->
      version (document s) <= version (document s')).
Proof.
  split; [|split; [|split; [|split]]].
  - intros. split; reflexivity.
  - reflexivity.
  - intros f a b s s'. apply version_applyFormatting.
  - intros s. split; [apply version_undo|apply version_redo].
  - intros es s s'. apply version_run.
Qed.

Lemma C4_version_never_decreases_witness :
  exists s s',
    run typedAndSelected (initialState "t0") = Some s
    /\ applyFormatting Bold 0 2 s = Some s'
    /\ version (document (initialState "t0")) <= version (document s)
    /\ version (document s') = version (document s).
Proof.
  destruct C4_version_never_decreases as (_ & _ & G3 & _ & G5).
  eexists. eexists.
  split; [vm_compute; reflexivity|].
  split; [vm_compute; reflexivity|].
  split.
  - apply (G5 typedAndSelected). vm_compute. reflexivity.
  - apply (G3 Bold 0 2). vm_compute. reflexivity.
Defined.

(** C4 as stated fails: making the selection "ab" bold replaces the
    content by "**ab**" and leaves the version at 2 and [lastModified] at
    the time of the last keystroke. *)
Lemma C4_counterexample :
  exists s s',
    run typedAndSelected (initialState "t0") = Some s
    /\ applyFormatting Bold 0 2 s = Some s'
    /\ content (document s) = Some "ab"
    /\ content (document s') = Some "**ab**"
    /\ version (document s) = 2
    /\ version (document s') = 2
    /\ version (document s') <> version (document s) + 1
    /\ lastModified (document s') = lastModified (document s).
Proof.
  eexists. eexists.
  split; [vm_compute; reflexivity|].
  split; [vm_compute; reflexivity|].
  repeat split; vm_compute; congruence.
Qed.

(** ** File import *)

Lemma all_chars_dot_inside r ext :
  Js.all_chars Js.extension_char (r ++ String "."%char ext) = false.
Proof.
  induction r as [|c r IH]; simpl.
  - reflexivity.
  - rewrite IH. apply andb_false_r.
Qed.

Lemma replace_extension_strips base ext :
  ext <> EmptyString ->
  Js.all_chars Js.extension_char ext = true ->
  Js.replace_extension (base ++ String "."%char ext) = base.
Proof.
  intros Hne Hext. induction base as [|c r IH].
  - destruct ext as [|d ext']; [congruence|].
    simpl append. unfold Js.replace_extension, Js.extension_matches.
    now rewrite Hext.
  - assert (Hno : Js.extension_matches
                    (String c (r ++ String "."%char ext)) = false).
    { unfold Js.extension_matches.
      destruct (r ++ String "."%char ext) as [|d t] eqn:E;
        [reflexivity|].
      rewrite <- E, all_chars_dot_inside. apply andb_false_r. }
    change ((String c r ++ String "."%char ext)%string)
      with (String c (r ++ String "."%char ext)).
    unfold Js.replace_extension. rewrite Hno.
    fold Js.replace_extension. now rewrite IH.
Qed.

(** A name with no dot is kept as it is. *)
Lemma replace_extension_no_dot s :
  Js.all_chars (fun c => negb (Ascii.eqb c "."%char)) s = true ->
  Js.replace_extension s = s.
Proof.
  induction s as [|c r IH]; [reflexivity|].
  simpl Js.all_chars. intros H. apply andb_true_iff in H as [Hc Hr].
  apply negb_true_iff in Hc.
  unfold Js.replace_extension. fold Js.replace_extension.
  assert (Hno : Js.extension_matches (String c r) = false).
  { unfold Js.extension_matches. destruct r; [reflexivity|].
    now rewrite Hc. }
  rewrite Hno. now rewrite (IH Hr).
Qed.

(** C9.  When the file reader delivers the text, the content is the
    text, the title is the file name without its last dot-suffix, and the
    history is the one a commit of the text gives, in the same step: the
    index advances by one, the text is the newest entry, and no typing
    timeout is armed or consumed. *)
Theorem C9_import_replaces_and_commits :
  (forall k fileName text s,
      let s' := readerOnload k fileName text s in
      content (document s') = Some text
      /\ title (document s') = Js.replace_extension fileName
      /\ history s' = history (saveToHistory k text s)
      /\ historyIndex s' = historyIndex s + 1
      /\ List.last (history s') EmptyString = text
      /\ typingTimeout s' = typingTimeout s)
  /\ (forall fileName text s,
      history (importDocument fileName text s) = history (commit text s))
  /\ (forall base ext,
      ext <> EmptyString ->
      Js.all_chars Js.extension_char ext = true ->
      Js.replace_extension (base ++ String "."%char ext) = base).
Proof.
  split; [|split].
  - intros k fileName text s. cbv zeta.
    repeat apply conj; try reflexivity.
    unfold readerOnload, saveToHistory. simpl.
    change (-50) with (- Z.of_nat 50).
    rewrite slice_from_last by lia. unfold keepLast.
    set (t := Js.slice (history s) 0 (k + 1)).
    rewrite skipn_app.
    replace (List.length (t ++ [text]) - 50 - List.length t)%nat
      with 0%nat by (rewrite length_app; simpl; lia).
    simpl skipn at 2. apply last_last.
  - reflexivity.
  - apply replace_extension_strips.
Qed.

Lemma C9_import_replaces_and_commits_witness :
  "txt" <> EmptyString
  /\ Js.all_chars Js.extension_char "txt" = true
  /\ title (document (importDocument "notes.txt" "hello" (initialState "t")))
     = "notes"
  /\ history (importDocument "notes.txt" "hello" (initialState "t"))
     = ["hello"].
Proof.
  destruct C9_import_replaces_and_commits as (G1 & _ & G3).
  assert (H1 : "txt" <> EmptyString) by discriminate.
  assert (H2 : Js.all_chars Js.extension_char "txt" = true) by reflexivity.
  split; [exact H1|]. split; [exact H2|]. split.
  - destruct (G1 (-1) "notes.txt" "hello" (initialState "t"))
      as (_ & Ht & _).
    unfold importDocument. simpl historyIndex. rewrite Ht.
    exact (G3 "notes" "txt" H1 H2).
  - vm_compute. reflexivity.
Defined.

(** ** Formatting *)

(** C10.  With a non-empty [selectedText], [applyFormatting] leaves the
    version, [lastModified], the title, the history, the history index,
    the pending typing timeout, the typing flag and the users as they
    were; when the content is a string the handler succeeds and the new
    content is the text before the selection start, the selected text
    between two markers, and the text from the selection end on. *)
Theorem C10_formatting_changes_content_only f start stop s :
  selectedText s <> EmptyString ->
  let s' := stateAfter (applyFormatting f start stop s) s in
  version (document s') = version (document s)
  /\ lastModified (document s') = lastModified (document s)
  /\ title (document s') = title (document s)
  /\ history s' = history s
  /\ historyIndex s' = historyIndex s
  /\ typingTimeout s' = typingTimeout s
  /\ isTyping s' = isTyping s
  /\ users s' = users s
  /\ selectedText s' = selectedText s
  /\ forall c,
       content (document s) = Some c ->
       applyFormatting f start stop s = Some s'
       /\ content (document s')
          = Some (Js.substring c 0 start
                  ++ (marker f ++ selectedText s ++ marker f)
                  ++ Js.substring_from c stop).
Proof.
  intros Hsel. unfold applyFormatting.
  destruct (String.eqb (selectedText s) EmptyString) eqn:E;
    [apply String.eqb_eq in E; contradiction|].
  destruct (content (document s)) as [c|]; cbv zeta; simpl.
  - repeat apply conj; try reflexivity.
    intros c' [= <-]. split; reflexivity.
  - repeat apply conj; try reflexivity. discriminate.
Qed.

Lemma C10_formatting_changes_content_only_witness :
  exists s,
    run typedAndSelected (initialState "t0") = Some s
    /\ selectedText s <> EmptyString
    /\ exists s',
         applyFormatting Italic 0 2 s = Some s'
         /\ content (document s') = Some "*ab*"
         /\ version (document s') = version (document s)
         /\ history s' = history s.
Proof.
  eexists. split; [vm_compute; reflexivity|].
  match goal with |- selectedText ?s <> _ /\ _ => set (s0 := s) end.
  assert (H : selectedText s0 <> EmptyString) by (vm_compute; discriminate).
  split; [exact H|].
  destruct (C10_formatting_changes_content_only Italic 0 2 s0 H)
    as (Hv & _ & _ & Hh & _ & _ & _ & _ & _ & Hc).
  destruct (Hc "ab" eq_refl) as [Happ Hcont].
  eexists. split; [exact Happ|].
  split; [|split; assumption].
  rewrite Hcont. vm_compute. reflexivity.
Defined.

(** ** Further properties of the handlers *)

(** *** Runs *)

Lemma run_app es1 es2 s :
  run (es1 ++ es2) s
  = match run es1 s with
    | Some s1 => run es2 s1
    | None => None
    end.
Proof.
  revert s. induction es1 as [|e es1 IH]; intros s; simpl; [reflexivity|].
  destruct (step e s); [apply IH|reflexivity].
Qed.

Lemma run_changeEvents edits s :
  run (changeEvents edits) s = Some (burst edits s).
Proof.
  revert s. induction edits as [|e edits IH]; intros s; simpl;
    [reflexivity|apply IH].
Qed.

Lemma burst_snoc edits e s :
  burst (edits ++ [e]) s
  = handleContentChange (fst (fst e)) (snd (fst e)) (snd e) (burst edits s).
Proof. unfold burst. now rewrite fold_left_app. Qed.

Lemma burst_keeps_history edits s :
  history (burst edits s) = history s
  /\ historyIndex (burst edits s) = historyIndex s
  /\ version (document (burst edits s))
     = version (document s) + Z.of_nat (List.length edits).
Proof.
  induction edits as [|e edits (IHh & IHi & IHv)] using rev_ind.
  - simpl. repeat split. lia.
  - rewrite burst_snoc. simpl. rewrite IHh, IHi, IHv, length_app.
    simpl. repeat split. lia.
Qed.

(** *** Debounce *)

(** X1.  However many content changes precede it, one timeout saves exactly
    one entry, the last value typed, as a commit from the state before the
    burst would; the version counts every change; a further timeout does
    nothing. *)
Theorem burst_saves_last_value_once front v p now s :
  exists s',
    run (changeEvents (front ++ [(v, p, now)]) ++ [TypingTimeout]) s
    = Some s'
    /\ history s' = history (commit v s)
    /\ historyIndex s' = historyIndex s + 1
    /\ content (document s') = Some v
    /\ version (document s')
       = version (document s) + Z.of_nat (List.length front) + 1
    /\ isTyping s' = false
    /\ typingTimeout s' = None
    /\ run [TypingTimeout] s' = Some s'.
Proof.
  destruct (burst_keeps_history front s) as (Hh & Hi & Hv).
  eexists. split.
  - rewrite run_app, run_changeEvents, burst_snoc. simpl. reflexivity.
  - unfold typingTimeoutFires, commit, saveToHistory. simpl.
    rewrite Hh, Hi, Hv. repeat split.
Qed.

Lemma typing_flag_step e s s' :
  isTyping s = savePending s ->
  step e s = Some s' ->
  isTyping s' = savePending s'.
Proof.
  unfold savePending. intros Hs. destruct e; simpl.
  - now intros [= <-].
  - intros [= <-]. unfold typingTimeoutFires.
    destruct (typingTimeout s) eqn:E; simpl; [reflexivity|].
    now rewrite E.
  - now intros [= <-].
  - unfold handleTextSelection.
    destruct (content (document s)); [now intros [= <-]|discriminate].
  - unfold applyFormatting.
    destruct (String.eqb (selectedText s) EmptyString); [now intros [= <-]|].
    destruct (content (document s)); [now intros [= <-]|discriminate].
  - intros [= <-]. unfold undo. now destruct (0 <? historyIndex s).
  - intros [= <-]. unfold redo.
    now destruct (historyIndex s <? Z.of_nat (List.length (history s)) - 1).
  - now intros [= <-].
  - unfold remoteCursorTick.
    destruct (Qle_bool r1 _); [now intros [= <-]|].
    match goal with
    | |- (if ?g then _ else _) = _ -> _ => destruct g
    end; [|now intros [= <-]].
    destruct (content (document s)); [|discriminate].
    match goal with
    | |- match ?x with Some _ => _ | None => _ end = _ -> _ => destruct x
    end; [now intros [= <-]|discriminate].
Qed.

(** X2.  The typing indicator is on exactly while a save is pending, in
    every state a run of events reaches from the initial state. *)
Theorem typing_flag_tracks_pending_save now es s :
  run es (initialState now) = Some s ->
  isTyping s = savePending s.
Proof.
  assert (G : forall es s0 s1,
             isTyping s0 = savePending s0 ->
             run es s0 = Some s1 -> isTyping s1 = savePending s1).
  { clear. induction es as [|e es IH]; simpl; intros s0 s1 H0.
    - now intros [= <-].
    - destruct (step e s0) as [s'|] eqn:E; [|discriminate].
      apply IH. now apply (typing_flag_step e s0). }
  apply G. reflexivity.
Qed.

Lemma typing_flag_tracks_pending_save_witness :
  exists s,
    run [ContentChange "a" 1 "t1"; UndoClick] (initialState "t0") = Some s
    /\ isTyping s = savePending s.
Proof.
  eexists. split; [vm_compute; reflexivity|].
  apply (typing_flag_tracks_pending_save "t0"
           [ContentChange "a" 1 "t1"; UndoClick]).
  vm_compute. reflexivity.
Defined.

(** *** Bounds of the log over runs *)

Lemma index_floor_step e s s' :
  -1 <= historyIndex s -> step e s = Some s' -> -1 <= historyIndex s'.
Proof.
  intros Hs. destruct e; simpl.
  - intros [= <-]. exact Hs.
  - intros [= <-]. unfold typingTimeoutFires.
    destruct (typingTimeout s); simpl; lia.
  - intros [= <-]. exact Hs.
  - unfold handleTextSelection.
    destruct (content (document s)); [now intros [= <-]|discriminate].
  - unfold applyFormatting.
    destruct (String.eqb (selectedText s) EmptyString); [now intros [= <-]|].
    destruct (content (document s)); [now intros [= <-]|discriminate].
  - intros [= <-]. unfold undo.
    destruct (0 <? historyIndex s) eqn:E; simpl; [|exact Hs].
    apply Z.ltb_lt in E. lia.
  - intros [= <-]. unfold redo.
    destruct (historyIndex s <? Z.of_nat (List.length (history s)) - 1);
      simpl; lia.
  - intros [= <-]. simpl. lia.
  - unfold remoteCursorTick.
    destruct (Qle_bool r1 _); [now intros [= <-]|].
    match goal with
    | |- (if ?g then _ else _) = _ -> _ => destruct g
    end; [|now intros [= <-]].
    destruct (content (document s)); [|discriminate].
    match goal with
    | |- match ?x with Some _ => _ | None => _ end = _ -> _ => destruct x
    end; [now intros [= <-]|discriminate].
Qed.

Lemma index_floor_run es :
  forall s s', -1 <= historyIndex s -> run es s = Some s' ->
               -1 <= historyIndex s'.
Proof.
  induction es as [|e es IH]; simpl; intros s s' Hs.
  - now intros [= <-].
  - destruct (step e s) as [s1|] eqn:E; [|discriminate].
    apply IH. now apply (index_floor_step e s).
Qed.

(** X3.  In every state reached from the initial state the log holds at most
    50 entries and the index is at least -1. *)
Theorem reachable_log_bounds now es s :
  run es (initialState now) = Some s ->
  (List.length (history s) <= 50)%nat /\ -1 <= historyIndex s.
Proof.
  intros H. split.
  - apply (history_capped_run es (initialState now)); [simpl; lia|exact H].
  - apply (index_floor_run es (initialState now)); [simpl; lia|exact H].
Qed.

Lemma reachable_log_bounds_witness :
  exists s,
    run (flat_map typeAndSettle (repeat "x" 60)) (initialState "t") = Some s
    /\ (List.length (history s) <= 50)%nat
    /\ -1 <= historyIndex s.
Proof.
  eexists. split; [vm_compute; reflexivity|].
  destruct (reachable_log_bounds "t"
              (flat_map typeAndSettle (repeat "x" 60)) _
              ltac:(vm_compute; reflexivity)) as (H1 & H2).
  split; assumption.
Defined.

(** *** Undo and redo *)

(** X4.  A button is disabled exactly when its handler would change nothing:
    undo leaves the state as it is if and only if [canUndo] is false, and
    redo if and only if [canRedo] is false. *)
Theorem buttons_disabled_iff_no_effect s :
  (undo s = s <-> canUndo s = false)
  /\ (redo s = s <-> canRedo s = false).
Proof.
  split; split.
  - unfold undo, canUndo. intros H.
    destruct (0 <? historyIndex s) eqn:E.
    + apply (f_equal historyIndex) in H. simpl in H. lia.
    + apply Z.ltb_ge in E. apply negb_false_iff, Z.leb_le. exact E.
  - unfold undo, canUndo. intros H.
    apply negb_false_iff, Z.leb_le in H.
    destruct (0 <? historyIndex s) eqn:E; [apply Z.ltb_lt in E; lia|].
    reflexivity.
  - unfold redo, canRedo. intros H.
    destruct (historyIndex s <? Z.of_nat (List.length (history s)) - 1) eqn:E.
    + apply (f_equal historyIndex) in H. simpl in H. lia.
    + apply Z.ltb_ge in E. apply negb_false_iff, Z.geb_le. exact E.
  - apply redo_blocked.
Qed.

(** X5.  Redo reads inside the log whenever the index is at least -1, and undo
    whenever the index is at most the length: the content stays a string.
    Beyond that bound undo sets the content to [undefined]. *)
Theorem history_reads_in_range s :
  -1 <= historyIndex s ->
  content (document s) <> None ->
  content (document (redo s)) <> None
  /\ (historyIndex s <= Z.of_nat (List.length (history s)) ->
      content (document (undo s)) <> None)
  /\ (Z.of_nat (List.length (history s)) < historyIndex s ->
      content (document (undo s)) = None).
Proof.
  intros Hi Hc. split; [|split].
  - unfold redo.
    destruct (historyIndex s <? Z.of_nat (List.length (history s)) - 1)
      eqn:E; [|exact Hc].
    apply Z.ltb_lt in E. simpl.
    destruct (index_in_range (history s) (historyIndex s + 1)
                ltac:(lia)) as [x Hx].
    rewrite Hx. discriminate.
  - intros Hle. unfold undo.
    destruct (0 <? historyIndex s) eqn:E; [|exact Hc].
    apply Z.ltb_lt in E. simpl.
    destruct (index_in_range (history s) (historyIndex s - 1)
                ltac:(lia)) as [x Hx].
    rewrite Hx. discriminate.
  - intros Hgt. unfold undo.
    destruct (0 <? historyIndex s) eqn:E; [|apply Z.ltb_ge in E; lia].
    simpl. apply index_out_of_range. lia.
Qed.

Lemma history_reads_in_range_witness :
  let s := undo (commits ["a"; "ab"] (initialState "t")) in
  -1 <= historyIndex s
  /\ content (document s) <> None
  /\ content (document (redo s)) <> None.
Proof.
  intros s.
  assert (H0 : -1 <= historyIndex s) by (vm_compute; congruence).
  assert (H1 : content (document s) <> None) by (vm_compute; congruence).
  split; [exact H0|]. split; [exact H1|].
  exact (proj1 (history_reads_in_range s H0 H1)).
Defined.

(** X6.  Redo followed by undo, where redo is possible from an index inside
    the log: the index is back and the content is the entry at it. *)
Theorem redo_undo_restores_current_entry s :
  0 <= historyIndex s < Z.of_nat (List.length (history s)) - 1 ->
  historyIndex (undo (redo s)) = historyIndex s
  /\ history (undo (redo s)) = history s
  /\ content (document (undo (redo s)))
     = Js.index (history s) (historyIndex s)
  /\ (content (document s) = Js.index (history s) (historyIndex s) ->
      document (undo (redo s)) = document s).
Proof.
  intros [H0 H1]. unfold redo.
  destruct (historyIndex s <? Z.of_nat (List.length (history s)) - 1)
    eqn:E; [|apply Z.ltb_ge in E; lia].
  unfold undo. simpl.
  destruct (0 <? historyIndex s + 1) eqn:E'; [|apply Z.ltb_ge in E'; lia].
  simpl. rewrite Z.add_simpl_r. repeat split.
  intros Hc. rewrite <- Hc. apply document_eta.
Qed.

Lemma redo_undo_restores_current_entry_witness :
  let s := undo (commits ["a"; "ab"; "abc"] (initialState "t")) in
  0 <= historyIndex s < Z.of_nat (List.length (history s)) - 1
  /\ content (document (undo (redo s))) = Some "ab".
Proof.
  intros s.
  assert (H : 0 <= historyIndex s < Z.of_nat (List.length (history s)) - 1)
    by (vm_compute; split; congruence).
  split; [exact H|].
  destruct (redo_undo_restores_current_entry s H) as (_ & _ & Hc & _).
  rewrite Hc. vm_compute. reflexivity.
Defined.

Lemma index_app_left (a : list string) x (i : Z) :
  0 <= i < Z.of_nat (List.length a) ->
  Js.index (a ++ [x]) i = Js.index a i.
Proof.
  intros H. unfold Js.index.
  destruct (i <? 0); [reflexivity|].
  apply nth_error_app1. lia.
Qed.

Lemma index_app_last (a : list string) x :
  Js.index (a ++ [x]) (Z.of_nat (List.length a)) = Some x.
Proof.
  unfold Js.index.
  destruct (Z.of_nat (List.length a) <? 0) eqn:E; [apply Z.ltb_lt in E; lia|].
  rewrite Nat2Z.id, nth_error_app2 by lia.
  now rewrite Nat.sub_diag.
Qed.

Lemma index_firstn (a : list string) (n : nat) (i : Z) :
  0 <= i < Z.of_nat n -> Js.index (firstn n a) i = Js.index a i.
Proof.
  intros H. unfold Js.index.
  destruct (i <? 0); [reflexivity|].
  rewrite nth_error_firstn.
  destruct (Nat.ltb (Z.to_nat i) n) eqn:E; [reflexivity|].
  apply Nat.ltb_ge in E. lia.
Qed.

Lemma undo_after_commit c s :
  0 <= historyIndex s < Z.of_nat (List.length (history s)) ->
  historyIndex s <= 48 ->
  historyIndex (undo (commit c s)) = historyIndex s
  /\ content (document (undo (commit c s)))
     = Js.index (history s) (historyIndex s)
  /\ content (document (redo (undo (commit c s)))) = Some c.
Proof.
  intros Hi Hcap.
  assert (Hh : history (commit c s)
               = (firstn (Z.to_nat (historyIndex s + 1)) (history s)
                  ++ [c])%list).
  { unfold commit. rewrite history_saveToHistory by lia.
    apply keepLast_short. rewrite length_app, length_firstn.
    change (List.length [c]) with 1%nat. lia. }
  assert (Hlen : List.length
                   (firstn (Z.to_nat (historyIndex s + 1)) (history s))
                 = Z.to_nat (historyIndex s + 1))
    by (rewrite length_firstn; lia).
  assert (Hidx : historyIndex (commit c s) = historyIndex s + 1)
    by reflexivity.
  assert (Hu : undo (commit c s)
               = setDocument (fun prev =>
                   {| title := title prev;
                      content := Js.index (history (commit c s))
                                   (historyIndex (commit c s) - 1);
                      lastModified := lastModified prev;
                      version := version prev |})
                   (setHistoryIndex (fun prev => prev - 1) (commit c s))).
  { unfold undo. rewrite Hidx.
    destruct (0 <? historyIndex s + 1) eqn:E; [reflexivity|].
    apply Z.ltb_ge in E. lia. }
  split; [|split].
  - rewrite Hu. simpl. lia.
  - rewrite Hu. cbn [document setDocument content].
    rewrite Hh, Hidx, Z.add_simpl_r.
    rewrite index_app_left by lia.
    apply index_firstn. lia.
  - rewrite Hu. unfold redo.
    cbn [historyIndex history setDocument setHistoryIndex].
    rewrite Hidx, Hh, length_app, Hlen.
    change (List.length [c]) with 1%nat.
    destruct (historyIndex s + 1 - 1
              <? Z.of_nat (Z.to_nat (historyIndex s + 1) + 1) - 1) eqn:E;
      [|apply Z.ltb_ge in E; lia].
    cbn [document setDocument content].
    replace (historyIndex s + 1 - 1 + 1)
      with (Z.of_nat (List.length
              (firstn (Z.to_nat (historyIndex s + 1)) (history s))))
      by lia.
    apply index_app_last.
Qed.

(** X7.  Undo right after an edit has been saved, below capacity: with
    the index inside the log and at most 48 before the edit, the save
    evicts nothing, undo shows the entry that was current before the
    edit and puts the index back, and redo then shows the edit again.
    The version keeps counting the edit. *)
Theorem undo_after_saved_edit v p now s :
  0 <= historyIndex s < Z.of_nat (List.length (history s)) ->
  historyIndex s <= 48 ->
  let s' := undo (typingTimeoutFires (handleContentChange v p now s)) in
  content (document s') = Js.index (history s) (historyIndex s)
  /\ historyIndex s' = historyIndex s
  /\ content (document (redo s')) = Some v
  /\ version (document s') = version (document s) + 1
  /\ typingTimeout s' = None.
Proof.
  intros Hi Hcap. cbv zeta.
  set (typed := setIsTyping false
                  (setTypingTimeout None (handleContentChange v p now s))).
  assert (E : typingTimeoutFires (handleContentChange v p now s)
              = commit v typed).
  { unfold typingTimeoutFires, commit, typed.
    cbn [typingTimeout handleContentChange setTypingTimeout setIsTyping
         pendingIndex pendingContent historyIndex].
    reflexivity. }
  rewrite E.
  assert (Hi' : 0 <= historyIndex typed
                < Z.of_nat (List.length (history typed))) by exact Hi.
  assert (Hcap' : historyIndex typed <= 48) by exact Hcap.
  destruct (undo_after_commit v typed Hi' Hcap') as (Hidx & Hcont & Hredo).
  split; [exact Hcont|]. split; [exact Hidx|]. split; [exact Hredo|].
  unfold undo.
  destruct (0 <? historyIndex (commit v typed)); split; reflexivity.
Qed.

Lemma undo_after_saved_edit_witness :
  let s := commits ["a"; "ab"] (initialState "t") in
  0 <= historyIndex s < Z.of_nat (List.length (history s))
  /\ historyIndex s <= 48
  /\ content (document
       (undo (typingTimeoutFires (handleContentChange "abc" 3 "t1" s))))
     = Some "ab".
Proof.
  intros s.
  assert (H0 : 0 <= historyIndex s < Z.of_nat (List.length (history s)))
    by (vm_compute; split; congruence).
  assert (H1 : historyIndex s <= 48) by (vm_compute; congruence).
  destruct (undo_after_saved_edit "abc" 3 "t1" s H0 H1) as (Hu & _).
  split; [exact H0|]. split; [exact H1|].
  rewrite Hu. vm_compute. reflexivity.
Defined.

(** *** Strings *)

Lemma append_empty_r s : (s ++ EmptyString)%string = s.
Proof. induction s as [|c r IH]; simpl; [reflexivity|now rewrite IH]. Qed.

Lemma append_assoc' a b c :
  ((a ++ b) ++ c)%string = (a ++ (b ++ c))%string.
Proof. induction a as [|x r IH]; simpl; [reflexivity|now rewrite IH]. Qed.

Lemma len_append a b : Js.len (a ++ b) = Js.len a + Js.len b.
Proof.
  unfold Js.len. induction a as [|x r IH]; simpl String.length; lia.
Qed.

Lemma take_drop n s : (Js.take n s ++ Js.drop n s)%string = s.
Proof.
  revert s. induction n as [|n IH]; intros [|c r]; simpl; try reflexivity.
  now rewrite IH.
Qed.

Lemma length_take n s :
  String.length (Js.take n s) = Nat.min n (String.length s).
Proof.
  revert s. induction n as [|n IH]; intros [|c r]; simpl; try reflexivity.
  now rewrite IH.
Qed.

Lemma length_drop n s :
  String.length (Js.drop n s) = (String.length s - n)%nat.
Proof.
  revert s. induction n as [|n IH]; intros [|c r]; simpl; try reflexivity.
  apply IH.
Qed.

Lemma take_beyond n s : (String.length s <= n)%nat -> Js.take n s = s.
Proof.
  revert s. induction n as [|n IH]; intros [|c r]; simpl; try reflexivity.
  - lia.
  - intros H. rewrite IH by lia. reflexivity.
Qed.

Lemma drop_drop m n s : Js.drop m (Js.drop n s) = Js.drop (n + m) s.
Proof.
  revert s. induction n as [|n IH]; intros s; simpl; [reflexivity|].
  destruct s as [|c r]; [now destruct m|apply IH].
Qed.

Lemma substring_in_range c a b :
  0 <= a <= b -> b <= Js.len c ->
  Js.substring c a b
  = Js.take (Z.to_nat (b - a)) (Js.drop (Z.to_nat a) c).
Proof.
  intros Ha Hb. unfold Js.substring, Js.clamp.
  replace (Z.min (Z.max a 0) (Js.len c)) with a by lia.
  replace (Z.min (Z.max b 0) (Js.len c)) with b by lia.
  replace (Z.min a b) with a by lia.
  replace (Z.max a b) with b by lia.
  reflexivity.
Qed.

Lemma substring_from_in_range c b :
  0 <= b <= Js.len c ->
  Js.substring_from c b = Js.drop (Z.to_nat b) c.
Proof.
  intros Hb. unfold Js.substring_from.
  rewrite substring_in_range by (pose proof (len_nonneg c); lia).
  apply take_beyond. rewrite length_drop. unfold Js.len in *. lia.
Qed.

Lemma substring_collapsed c a : Js.substring c a a = EmptyString.
Proof.
  unfold Js.substring.
  rewrite Z.min_id, Z.max_id, Z.sub_diag. reflexivity.
Qed.

(** *** File names *)

Lemma replace_extension_removes_suffix s :
  exists suffix,
    s = (Js.replace_extension s ++ suffix)%string
    /\ (suffix = EmptyString \/ Js.extension_matches suffix = true).
Proof.
  induction s as [|c r (suffix & Hs & Hm)].
  - exists EmptyString. split; [reflexivity|now left].
  - unfold Js.replace_extension. fold Js.replace_extension.
    destruct (Js.extension_matches (String c r)) eqn:E.
    + exists (String c r). split; [reflexivity|now right].
    + exists suffix. split; [|exact Hm].
      simpl. now rewrite <- Hs.
Qed.

Lemma extension_matches_shape s :
  Js.extension_matches s = true ->
  exists ext,
    s = String "."%char ext
    /\ ext <> EmptyString
    /\ Js.all_chars Js.extension_char ext = true.
Proof.
  unfold Js.extension_matches.
  destruct s as [|c [|d r]]; try discriminate.
  intros H. apply andb_true_iff in H as [Hc Hr].
  apply Ascii.eqb_eq in Hc. subst c.
  exists (String d r). repeat split; [discriminate|exact Hr].
Qed.

(** X9.  A file name is kept as the title exactly when it does not end in an
    extension: a dot followed by one or more characters that are neither
    a dot nor a slash.  The title is never longer than the name. *)
Theorem title_kept_iff_no_extension fileName :
  (Js.replace_extension fileName = fileName
   <-> ~ exists base ext,
         fileName = (base ++ String "."%char ext)%string
         /\ ext <> EmptyString
         /\ Js.all_chars Js.extension_char ext = true)
  /\ Js.len (Js.replace_extension fileName) <= Js.len fileName.
Proof.
  destruct (replace_extension_removes_suffix fileName) as (suffix & Hs & Hm).
  split; [split|].
  - intros Hkeep (base & ext & Hname & Hne & Hext).
    pose proof (replace_extension_strips base ext Hne Hext) as Hstrip.
    rewrite <- Hname, Hkeep in Hstrip.
    apply (f_equal Js.len) in Hname.
    rewrite Hstrip, len_append in Hname.
    unfold Js.len in Hname. simpl in Hname. lia.
  - intros Hno. destruct Hm as [->|Hm].
    + rewrite append_empty_r in Hs. now symmetry.
    + exfalso. apply Hno.
      destruct (extension_matches_shape suffix Hm) as (ext & -> & Hne & Hext).
      exists (Js.replace_extension fileName), ext. repeat split; assumption.
  - apply (f_equal Js.len) in Hs. rewrite len_append in Hs.
    pose proof (len_nonneg suffix). lia.
Qed.

(** *** Positions along the text *)

Lemma join_new_segment segs x :
  segs <> [] ->
  join_LF (segs ++ [x]) = (join_LF segs ++ String Js.LF x)%string.
Proof.
  induction segs as [|seg rest IH]; [congruence|]. intros _.
  destruct rest as [|seg' rest'].
  - reflexivity.
  - change (join_LF ((seg :: seg' :: rest') ++ [x]))
      with (seg ++ String Js.LF (join_LF ((seg' :: rest') ++ [x])))%string.
    rewrite IH by discriminate.
    change (join_LF (seg :: seg' :: rest'))
      with (seg ++ String Js.LF (join_LF (seg' :: rest')))%string.
    now rewrite append_assoc'.
Qed.

Lemma join_longer_last init l t :
  join_LF (init ++ [(l ++ t)%string])
  = (join_LF (init ++ [l]) ++ t)%string.
Proof.
  induction init as [|seg rest IH]; [reflexivity|].
  destruct rest as [|seg' rest'].
  - simpl. now rewrite append_assoc'.
  - change (join_LF ((seg :: seg' :: rest') ++ [(l ++ t)%string]))
      with (seg ++ String Js.LF
              (join_LF ((seg' :: rest') ++ [(l ++ t)%string])))%string.
    rewrite IH.
    change (join_LF ((seg :: seg' :: rest') ++ [l]))
      with (seg ++ String Js.LF (join_LF ((seg' :: rest') ++ [l])))%string.
    now rewrite append_assoc'.
Qed.

(** The split of a text with one more character. *)
Lemma split_one_more s ch :
  Js.split_LF (s ++ String ch EmptyString)
  = if Ascii.eqb ch Js.LF then (Js.split_LF s ++ [EmptyString])%list
    else (removelast (Js.split_LF s)
          ++ [(lastSegment (Js.split_LF s) ++ String ch EmptyString)%string])
         %list.
Proof.
  destruct (split_LF_cons s) as (seg & segs & E).
  assert (Hne : Js.split_LF s <> []) by (rewrite E; discriminate).
  pose proof (split_no_LF s) as Hall.
  pose proof (join_split s) as Hjoin.
  pose proof (app_removelast_last EmptyString Hne) as Hdec.
  fold (lastSegment (Js.split_LF s)) in Hdec.
  destruct (Ascii.eqb ch Js.LF) eqn:Ec.
  - apply Ascii.eqb_eq in Ec. subst ch.
    rewrite <- Hjoin at 1. rewrite <- join_new_segment by assumption.
    apply split_join.
    + intros H. apply app_eq_nil in H as [_ H]. discriminate.
    + apply Forall_app. split; [assumption|]. repeat constructor.
  - rewrite <- Hjoin at 1. rewrite Hdec at 1.
    rewrite <- join_longer_last.
    apply split_join.
    + intros H. apply app_eq_nil in H as [_ H]. discriminate.
    + rewrite Hdec in Hall. apply Forall_app in Hall as [Hinit Hlast].
      apply Forall_app. split; [assumption|].
      inversion Hlast as [|? ? Hl _]; subst.
      repeat constructor. rewrite no_LF_append, Hl.
      unfold no_LF. simpl. now rewrite Ec.
Qed.

Lemma take_one_more n c :
  (n < String.length c)%nat ->
  exists ch,
    String.get n c = Some ch
    /\ Js.take (S n) c = (Js.take n c ++ String ch EmptyString)%string.
Proof.
  revert c. induction n as [|n IH]; intros [|x r]; simpl; try lia.
  - intros _. exists x. split; reflexivity.
  - intros H. destruct (IH r ltac:(lia)) as (ch & Hg & Ht).
    exists ch. split; [exact Hg|]. simpl in Ht. now rewrite Ht.
Qed.

Lemma getCursorPosition_prefix c offset :
  getCursorPosition offset c
  = let lines :=
      Js.split_LF (Js.take (Z.to_nat (Js.clamp offset (Js.len c))) c) in
    {| line := Z.of_nat (List.length lines);
       column := Js.len (lastSegment lines) + 1 |}.
Proof. unfold getCursorPosition. now rewrite substring_prefix. Qed.

(** The position one character further, from the lines before it. *)
Lemma position_after_character c n ch :
  0 <= n < Js.len c ->
  String.get (Z.to_nat n) c = Some ch ->
  getCursorPosition (n + 1) c
  = let lines := Js.split_LF (Js.take (Z.to_nat n) c) in
    if Ascii.eqb ch Js.LF
    then {| line := Z.of_nat (List.length lines) + 1; column := 1 |}
    else {| line := Z.of_nat (List.length lines);
            column := Js.len (lastSegment lines) + 2 |}.
Proof.
  intros Hn Hget.
  rewrite getCursorPosition_in_range by lia. cbv zeta.
  replace (Z.to_nat (n + 1)) with (S (Z.to_nat n)) by lia.
  destruct (take_one_more (Z.to_nat n) c) as (ch' & Hg & Ht);
    [unfold Js.len in Hn; lia|].
  rewrite Hget in Hg. injection Hg as <-.
  rewrite Ht, split_one_more.
  set (segs := Js.split_LF (Js.take (Z.to_nat n) c)).
  destruct (Ascii.eqb ch Js.LF).
  - rewrite length_app. unfold lastSegment. rewrite last_last.
    f_equal. simpl. lia.
  - destruct (split_LF_cons (Js.take (Z.to_nat n) c)) as (seg & rest & E).
    fold segs in E.
    assert (Hne : segs <> []) by (rewrite E; discriminate).
    pose proof (app_removelast_last EmptyString Hne) as Hdec.
    apply (f_equal (@List.length string)) in Hdec.
    rewrite length_app in Hdec. simpl in Hdec.
    rewrite length_app. unfold lastSegment. rewrite last_last.
    rewrite len_append. f_equal; [simpl; lia|].
    unfold Js.len at 2. simpl. lia.
Qed.

(** X10.  One character to the right: over a line feed the position
    goes to column 1 of the next line, over any other character to the
    next column of the same line. *)
Theorem cursor_advances_by_one_character c n ch :
  0 <= n < Js.len c ->
  String.get (Z.to_nat n) c = Some ch ->
  let p := getCursorPosition n c in
  let p' := getCursorPosition (n + 1) c in
  if Ascii.eqb ch Js.LF
  then line p' = line p + 1 /\ column p' = 1
  else line p' = line p /\ column p' = column p + 1.
Proof.
  intros Hn Hget. cbv zeta.
  rewrite (position_after_character c n ch Hn Hget).
  rewrite (getCursorPosition_in_range c n) by lia. cbv zeta.
  destruct (Ascii.eqb ch Js.LF); cbn [line column]; split;
    first [reflexivity | lia].
Qed.

Lemma cursor_advances_by_one_character_witness :
  0 <= 2 < Js.len ab_LF_cd
  /\ String.get (Z.to_nat 2) ab_LF_cd = Some Js.LF
  /\ line (getCursorPosition 3 ab_LF_cd)
     = line (getCursorPosition 2 ab_LF_cd) + 1
  /\ column (getCursorPosition 3 ab_LF_cd) = 1.
Proof.
  assert (H0 : 0 <= 2 < Js.len ab_LF_cd) by (vm_compute; split; congruence).
  assert (H1 : String.get (Z.to_nat 2) ab_LF_cd = Some Js.LF) by reflexivity.
  split; [exact H0|]. split; [exact H1|].
  exact (cursor_advances_by_one_character ab_LF_cd 2 Js.LF H0 H1).
Defined.

Lemma positionLt_trans p q r :
  positionLt p q -> positionLt q r -> positionLt p r.
Proof. unfold positionLt. lia. Qed.

Lemma position_step_lt c (k : nat) :
  (k < String.length c)%nat ->
  positionLt (getCursorPosition (Z.of_nat k) c)
             (getCursorPosition (Z.of_nat (S k)) c).
Proof.
  intros Hk.
  destruct (take_one_more k c Hk) as (ch & Hg & _).
  assert (Hn : 0 <= Z.of_nat k < Js.len c) by (unfold Js.len; lia).
  rewrite <- (Nat2Z.id k) in Hg.
  replace (Z.of_nat (S k)) with (Z.of_nat k + 1) by lia.
  rewrite (position_after_character c (Z.of_nat k) ch Hn Hg).
  rewrite (getCursorPosition_in_range c (Z.of_nat k)) by lia. cbv zeta.
  pose proof (len_nonneg
    (lastSegment (Js.split_LF (Js.take (Z.to_nat (Z.of_nat k)) c)))).
  unfold positionLt. destruct (Ascii.eqb ch Js.LF); cbn [line column]; lia.
Qed.

Lemma position_lt_along c (k m : nat) :
  (k < m)%nat -> (m <= String.length c)%nat ->
  positionLt (getCursorPosition (Z.of_nat k) c)
             (getCursorPosition (Z.of_nat m) c).
Proof.
  induction m as [|m IH]; [lia|]. intros Hkm Hm.
  destruct (Nat.eq_dec k m) as [->|Hne].
  - apply position_step_lt. lia.
  - apply (positionLt_trans _ (getCursorPosition (Z.of_nat m) c)).
    + apply IH; lia.
    + apply position_step_lt. lia.
Qed.

(** X11.  Within the content the position grows with the offset in reading
    order, so two different offsets never show the same line and
    column. *)
Theorem position_determines_offset c m n :
  0 <= m <= Js.len c -> 0 <= n <= Js.len c ->
  (m < n -> positionLt (getCursorPosition m c) (getCursorPosition n c))
  /\ (getCursorPosition m c = getCursorPosition n c -> m = n).
Proof.
  intros Hm Hn.
  assert (Hlt : forall a b, 0 <= a -> a < b -> b <= Js.len c ->
            positionLt (getCursorPosition a c) (getCursorPosition b c)).
  { intros a b Ha Hab Hb.
    rewrite <- (Z2Nat.id a), <- (Z2Nat.id b) by lia.
    apply position_lt_along; unfold Js.len in *; lia. }
  split.
  - intros H. apply Hlt; lia.
  - intros Heq.
    destruct (Z.lt_trichotomy m n) as [H|[H|H]]; [|exact H|].
    + pose proof (Hlt m n ltac:(lia) H ltac:(lia)) as L.
      rewrite Heq in L. unfold positionLt in L. lia.
    + pose proof (Hlt n m ltac:(lia) H ltac:(lia)) as L.
      rewrite Heq in L. unfold positionLt in L. lia.
Qed.

Lemma position_determines_offset_witness :
  0 <= 1 <= Js.len ab_LF_cd /\ 0 <= 4 <= Js.len ab_LF_cd
  /\ positionLt (getCursorPosition 1 ab_LF_cd) (getCursorPosition 4 ab_LF_cd).
Proof.
  assert (H0 : 0 <= 1 <= Js.len ab_LF_cd) by (vm_compute; split; congruence).
  assert (H1 : 0 <= 4 <= Js.len ab_LF_cd) by (vm_compute; split; congruence).
  split; [exact H0|]. split; [exact H1|].
  apply (proj1 (position_determines_offset ab_LF_cd 1 4 H0 H1)). lia.
Defined.

Lemma len_join_lower segs :
  segs <> [] ->
  Z.of_nat (List.length segs) - 1 + Js.len (lastSegment segs)
  <= Js.len (join_LF segs).
Proof.
  induction segs as [|seg rest IH]; [congruence|]. intros _.
  destruct rest as [|seg' rest'].
  - unfold lastSegment. simpl. lia.
  - change (join_LF (seg :: seg' :: rest'))
      with (seg ++ String Js.LF (join_LF (seg' :: rest')))%string.
    rewrite len_append.
    change (String Js.LF (join_LF (seg' :: rest')))
      with (String Js.LF EmptyString ++ join_LF (seg' :: rest'))%string.
    rewrite len_append.
    specialize (IH ltac:(discriminate)).
    change (lastSegment (seg :: seg' :: rest'))
      with (lastSegment (seg' :: rest')).
    pose proof (len_nonneg seg).
    change (Js.len (String Js.LF EmptyString)) with 1.
    change (List.length (seg :: seg' :: rest'))
      with (S (List.length (seg' :: rest'))).
    lia.
Qed.

Lemma count_LF_take n c : (count_LF (Js.take n c) <= count_LF c)%nat.
Proof.
  revert c. induction n as [|n IH]; intros [|x r]; simpl; try lia.
  specialize (IH r). lia.
Qed.

(** X12.  Bounds of the read-out, for every offset, in range or not: line and
    column are at least 1, the characters before the position account
    for them ([line - 1] line feeds and [column - 1] characters of the
    last line, within the clamped offset), and an offset of 0 or less
    reads as line 1, column 1. *)
Theorem position_bounds c offset :
  1 <= line (getCursorPosition offset c)
  /\ 1 <= column (getCursorPosition offset c)
  /\ (line (getCursorPosition offset c) - 1)
     + (column (getCursorPosition offset c) - 1)
     <= Js.clamp offset (Js.len c)
  /\ (offset <= 0 ->
      getCursorPosition offset c = {| line := 1; column := 1 |}).
Proof.
  pose proof (len_nonneg c) as Hl.
  rewrite getCursorPosition_prefix. cbv zeta. cbn [line column].
  set (k := Js.clamp offset (Js.len c)).
  assert (Hk : 0 <= k <= Js.len c) by (unfold k, Js.clamp; lia).
  set (prefix := Js.take (Z.to_nat k) c).
  destruct (split_LF_cons prefix) as (seg & rest & E).
  assert (Hne : Js.split_LF prefix <> []) by (rewrite E; discriminate).
  pose proof (len_join_lower _ Hne) as Hlow.
  rewrite join_split in Hlow.
  assert (Hp : Js.len prefix = k).
  { unfold prefix, Js.len. rewrite length_take. unfold Js.len in Hk. lia. }
  pose proof (len_nonneg (lastSegment (Js.split_LF prefix))) as Hlast.
  assert (Hlen : 1 <= Z.of_nat (List.length (Js.split_LF prefix)))
    by (rewrite E; simpl; lia).
  repeat split; try lia.
  intros Hoff.
  assert (Hk0 : k = 0) by (unfold k, Js.clamp; lia).
  unfold prefix. rewrite Hk0. reflexivity.
Qed.

(** X13.  The status bar and the cursor read-out agree: no position shows a
    line beyond the "Lines" count, and the position at the end of the
    content is on that last line, after its last character. *)
Theorem position_within_status_lines c :
  (forall offset, line (getCursorPosition offset c) <= statusLines c)
  /\ getCursorPosition (statusCharacters c) c
     = {| line := statusLines c;
          column := Js.len (lastSegment (Js.split_LF c)) + 1 |}.
Proof.
  split.
  - intros offset. rewrite getCursorPosition_prefix. cbv zeta. cbn [line].
    unfold statusLines. rewrite !length_split.
    pose proof (count_LF_take (Z.to_nat (Js.clamp offset (Js.len c))) c).
    lia.
  - unfold statusCharacters, statusLines.
    rewrite getCursorPosition_in_range by (pose proof (len_nonneg c); lia).
    cbv zeta.
    replace (Z.to_nat (Js.len c)) with (String.length c)
      by (unfold Js.len; lia).
    rewrite take_all. reflexivity.
Qed.

(** *** The users panel *)

Lemma profile_mapCursor uid pos us :
  map profile (mapCursor uid pos us) = map profile us.
Proof.
  unfold mapCursor. rewrite map_map. apply map_ext.
  intros u. now destruct (id u =? uid).
Qed.

Lemma profile_step e s s' :
  step e s = Some s' -> map profile (users s') = map profile (users s).
Proof.
  destruct e; simpl.
  - intros [= <-]. simpl. apply profile_mapCursor.
  - intros [= <-]. unfold typingTimeoutFires.
    now destruct (typingTimeout s).
  - now intros [= <-].
  - unfold handleTextSelection.
    destruct (content (document s)); [now intros [= <-]|discriminate].
  - unfold applyFormatting.
    destruct (String.eqb (selectedText s) EmptyString); [now intros [= <-]|].
    destruct (content (document s)); [now intros [= <-]|discriminate].
  - intros [= <-]. unfold undo. now destruct (0 <? historyIndex s).
  - intros [= <-]. unfold redo.
    now destruct (historyIndex s <? Z.of_nat (List.length (history s)) - 1).
  - now intros [= <-].
  - unfold remoteCursorTick.
    destruct (Qle_bool r1 _); [now intros [= <-]|].
    match goal with
    | |- (if ?g then _ else _) = _ -> _ => destruct g
    end; [|now intros [= <-]].
    destruct (content (document s)); [|discriminate].
    match goal with
    | |- match ?x with Some _ => _ | None => _ end = _ -> _ => destruct x
    end; [|discriminate].
    intros [= <-]. simpl. apply profile_mapCursor.
Qed.

Lemma profile_filter_active (us us' : list User) :
  map profile us' = map profile us ->
  map profile (filter (fun u => active u) us')
  = map profile (filter (fun u => active u) us).
Proof.
  revert us. induction us' as [|u' us' IH]; intros [|u us]; cbn [map filter];
    try discriminate; [reflexivity|].
  intros H.
  assert (Hp : profile u' = profile u) by congruence.
  assert (Hrest : map profile us' = map profile us) by congruence.
  assert (Ha : active u' = active u)
    by (apply (f_equal snd) in Hp; exact Hp).
  rewrite Ha. destruct (active u); cbn [map].
  - now rewrite Hp, (IH us Hrest).
  - apply IH. exact Hrest.
Qed.

(** X14.  No event adds, removes, reorders, renames, recolours, activates or
    deactivates a user: along every run only cursors change, so the users
    panel always lists the same active users in the same order. *)
Theorem users_panel_is_stable es :
  forall s s',
    run es s = Some s' ->
    map profile (users s') = map profile (users s)
    /\ map profile (activeUsers s') = map profile (activeUsers s)
    /\ List.length (activeUsers s') = List.length (activeUsers s).
Proof.
  assert (G : forall s s', run es s = Some s' ->
                           map profile (users s') = map profile (users s)).
  { induction es as [|e es IH]; simpl; intros s s'.
    - now intros [= <-].
    - destruct (step e s) as [s1|] eqn:E; [|discriminate].
      intros H. rewrite (IH _ _ H). now apply (profile_step e). }
  intros s s' H. pose proof (G s s' H) as Hp.
  pose proof (profile_filter_active _ _ Hp) as Hf.
  split; [exact Hp|]. split; [exact Hf|].
  unfold activeUsers. apply (f_equal (@List.length _)) in Hf.
  now rewrite !length_map in Hf.
Qed.

Lemma users_panel_is_stable_witness :
  exists s,
    run [ContentChange "hello" 5 "t1"; RemoteTick (7 # 8) 0 (1 # 2)]
        (initialState "t0") = Some s
    /\ map name (activeUsers s) = ["You"; "Alice"].
Proof.
  eexists. split; [vm_compute; reflexivity|].
  match goal with |- map name (activeUsers ?s1) = _ => set (s := s1) end.
  destruct (users_panel_is_stable
              [ContentChange "hello" 5 "t1"; RemoteTick (7 # 8) 0 (1 # 2)]
              (initialState "t0") s ltac:(vm_compute; reflexivity))
    as (_ & Hact & _).
  apply (f_equal (map (fun p => snd (fst (fst p))))) in Hact.
  rewrite !map_map in Hact. exact Hact.
Defined.

(** X15.  The simulated remote update touches nothing but cursors, never moves
    a user with id 1, and moves a user only to share the id of an active
    user other than the local one. *)
Theorem remote_tick_moves_only_remote_cursors r1 r2 r3 s s' :
  remoteCursorTick r1 r2 r3 s = Some s' ->
  document s' = document s
  /\ history s' = history s
  /\ historyIndex s' = historyIndex s
  /\ typingTimeout s' = typingTimeout s
  /\ selectedText s' = selectedText s
  /\ forall i u,
       nth_error (users s) i = Some u ->
       nth_error (users s') i = Some u
       \/ (id u <> 1
           /\ (exists r, In r (users s) /\ active r = true /\ id r = id u)
           /\ exists pos, nth_error (users s') i = Some (withCursor pos u)).
Proof.
  unfold remoteCursorTick.
  destruct (Qle_bool r1 _);
    [intros [= <-]; repeat split; now left|].
  match goal with
  | |- (if ?g then _ else _) = _ -> _ => destruct g
  end; [|intros [= <-]; repeat split; now left].
  destruct (content (document s)) as [c|]; [|discriminate].
  match goal with
  | |- match Js.index ?l ?k with Some _ => _ | None => _ end = _ -> _ =>
      destruct (Js.index l k) as [randomUser|] eqn:Er; [|discriminate]
  end.
  intros [= <-]. simpl. repeat split.
  intros i u Hu. rewrite (nth_error_mapCursor _ _ _ _ _ Hu).
  destruct (id u =? id randomUser) eqn:Eid; [|now left].
  apply Z.eqb_eq in Eid. right.
  assert (Hin : In randomUser
                  (filter (fun u => active u && negb (id u =? 1)) (users s))).
  { unfold Js.index in Er.
    match type of Er with
    | (if ?b then _ else _) = _ => destruct b; [discriminate|]
    end.
    now apply nth_error_In in Er. }
  apply filter_In in Hin as [Hin Hprop].
  apply andb_true_iff in Hprop as [Hact Hid].
  apply negb_true_iff, Z.eqb_neq in Hid.
  split; [congruence|]. split; [|eauto].
  exists randomUser. repeat split; [assumption..|congruence].
Qed.

Lemma remote_tick_moves_only_remote_cursors_witness :
  exists s',
    remoteCursorTick (7 # 8) 0 (1 # 2)
      (handleContentChange "hello" 5 "t1" (initialState "t0")) = Some s'
    /\ history s' = []
    /\ map cursor (users s') = [5; 2; 32].
Proof.
  eexists. split; [vm_compute; reflexivity|].
  match goal with |- history ?s1 = _ /\ _ => set (s' := s1) end.
  destruct (remote_tick_moves_only_remote_cursors (7 # 8) 0 (1 # 2)
              (handleContentChange "hello" 5 "t1" (initialState "t0")) s'
              ltac:(vm_compute; reflexivity)) as (_ & Hh & _).
  split; [rewrite Hh; reflexivity|vm_compute; reflexivity].
Defined.

(** *** Formatting a selection *)

(** X16.  Selecting [a .. b] (non-empty, within the content) and clicking a
    format button wraps exactly the selected characters: the text before
    the selection, the selection and the text after it are the old
    content, the new content has the marker on both sides of the
    selection, and it is longer by two markers. *)
Theorem formatting_wraps_the_selection s c f a b :
  content (document s) = Some c ->
  0 <= a < b -> b <= Js.len c ->
  exists s1 s2 newContent,
    handleTextSelection a b s = Some s1
    /\ applyFormatting f a b s1 = Some s2
    /\ content (document s2) = Some newContent
    /\ let before := Js.take (Z.to_nat a) c in
       let sel := selectedText s1 in
       let after := Js.drop (Z.to_nat b) c in
       (before ++ sel ++ after)%string = c
       /\ Js.len sel = b - a
       /\ newContent
          = (before ++ (marker f ++ sel ++ marker f) ++ after)%string
       /\ statusCharacters newContent
          = statusCharacters c + 2 * Js.len (marker f).
Proof.
  intros Hc Hab Hb.
  remember (Js.take (Z.to_nat (b - a)) (Js.drop (Z.to_nat a) c)) as sel
    eqn:Esel.
  assert (Hsub : Js.substring c a b = sel)
    by (rewrite Esel; apply substring_in_range; lia).
  assert (Hlen : Js.len sel = b - a).
  { rewrite Esel. unfold Js.len. rewrite length_take, length_drop.
    unfold Js.len in Hb. lia. }
  assert (Hne : String.eqb sel EmptyString = false).
  { destruct sel as [|x r]; [|reflexivity].
    unfold Js.len in Hlen. simpl in Hlen. lia. }
  assert (Hwhole : (Js.take (Z.to_nat a) c ++ sel ++ Js.drop (Z.to_nat b) c)
                   %string = c).
  { replace (Z.to_nat b) with (Z.to_nat a + Z.to_nat (b - a))%nat by lia.
    rewrite <- drop_drop, Esel.
    rewrite take_drop. apply take_drop. }
  unfold handleTextSelection. rewrite Hc, Hsub.
  exists (setSelectedText sel s).
  unfold applyFormatting. cbn [selectedText setSelectedText document].
  rewrite Hne, Hc.
  rewrite substring_prefix, substring_from_in_range by lia.
  replace (Js.clamp a (Js.len c)) with a by (unfold Js.clamp; lia).
  do 2 eexists. split; [reflexivity|]. split; [reflexivity|].
  split; [reflexivity|]. cbv zeta.
  split; [exact Hwhole|]. split; [exact Hlen|]. split; [reflexivity|].
  unfold statusCharacters.
  pose proof (f_equal Js.len Hwhole) as HL.
  rewrite !len_append in HL. rewrite !len_append. lia.
Qed.

Lemma formatting_wraps_the_selection_witness :
  let s := handleContentChange "hello world" 11 "t1" (initialState "t0") in
  content (document s) = Some "hello world"
  /\ 0 <= 6 < 11 /\ 11 <= Js.len "hello world"
  /\ exists s2,
       run [TextSelection 6 11; ApplyFormatting Underline 6 11] s = Some s2
       /\ content (document s2) = Some "hello __world__".
Proof.
  intros s.
  assert (H0 : content (document s) = Some "hello world") by reflexivity.
  assert (H1 : 0 <= 6 < 11) by lia.
  assert (H2 : 11 <= Js.len "hello world") by (vm_compute; congruence).
  destruct (formatting_wraps_the_selection s _ Underline 6 11 H0 H1 H2)
    as (s1 & s2 & newContent & Hsel & Happ & Hcont & _ & _ & Hnew & _).
  split; [exact H0|]. split; [exact H1|]. split; [exact H2|].
  exists s2. split.
  - cbn [run step]. rewrite Hsel, Happ. reflexivity.
  - rewrite Hcont, Hnew.
    assert (Hs1 : selectedText s1 = "world").
    { unfold handleTextSelection in Hsel. rewrite H0 in Hsel.
      injection Hsel as <-. vm_compute. reflexivity. }
    rewrite Hs1. vm_compute. reflexivity.
Defined.

(** X17.  With a collapsed selection (a caret) a format button does nothing:
    the selected text is empty and [applyFormatting] returns at once,
    leaving the content and the toolbar flags as they were. *)
Theorem formatting_needs_a_selection s c f a :
  content (document s) = Some c ->
  exists s1,
    handleTextSelection a a s = Some s1
    /\ applyFormatting f a a s1 = Some s1
    /\ document s1 = document s
    /\ formatting s1 = formatting s.
Proof.
  intros Hc. unfold handleTextSelection. rewrite Hc, substring_collapsed.
  eexists. split; [reflexivity|]. repeat split.
Qed.

Lemma formatting_needs_a_selection_witness :
  exists s1,
    run [TextSelection 0 0; ApplyFormatting Bold 0 0] (initialState "t0")
    = Some s1
    /\ document s1 = document (initialState "t0").
Proof.
  destruct (formatting_needs_a_selection (initialState "t0") EmptyString
              Bold 0 eq_refl) as (s1 & Hsel & Happ & Hdoc & _).
  exists s1. split; [|exact Hdoc].
  cbn [run step]. rewrite Hsel, Happ. reflexivity.
Defined.

(** *** Undo after an import *)

(** X8.  Undo right after a file import (index inside the log and at most 48)
    brings back the content of the entry that was current before the
    import, but not the title or the version: the title stays the one
    derived from the file name and the version stays incremented. *)
Theorem undo_after_import_keeps_title fileName text s :
  0 <= historyIndex s < Z.of_nat (List.length (history s)) ->
  historyIndex s <= 48 ->
  let s' := undo (importDocument fileName text s) in
  content (document s') = Js.index (history s) (historyIndex s)
  /\ title (document s') = Js.replace_extension fileName
  /\ version (document s') = version (document s) + 1
  /\ historyIndex s' = historyIndex s
  /\ content (document (redo s')) = Some text.
Proof.
  intros Hi Hcap. cbv zeta.
  set (loaded := setDocument (fun prev =>
         {| title := Js.replace_extension fileName; content := Some text;
            lastModified := lastModified prev;
            version := version prev + 1 |}) s).
  change (importDocument fileName text s) with (commit text loaded).
  destruct (undo_after_commit text loaded Hi Hcap)
    as (Hidx & Hcont & Hredo).
  split; [exact Hcont|]. split; [|split; [|split; [exact Hidx|exact Hredo]]].
  - unfold undo.
    destruct (0 <? historyIndex (commit text loaded)); reflexivity.
  - unfold undo.
    destruct (0 <? historyIndex (commit text loaded)); reflexivity.
Qed.

Lemma undo_after_import_keeps_title_witness :
  let s := commits ["draft"] (initialState "t") in
  0 <= historyIndex s < Z.of_nat (List.length (history s))
  /\ historyIndex s <= 48
  /\ content (document (undo (importDocument "notes.txt" "hello" s)))
     = Some "draft"
  /\ title (document (undo (importDocument "notes.txt" "hello" s)))
     = "notes".
Proof.
  intros s.
  assert (H0 : 0 <= historyIndex s < Z.of_nat (List.length (history s)))
    by (vm_compute; split; congruence).
  assert (H1 : historyIndex s <= 48) by (vm_compute; congruence).
  destruct (undo_after_import_keeps_title "notes.txt" "hello" s H0 H1)
    as (Hc & Ht & _).
  split; [exact H0|]. split; [exact H1|]. split.
  - rewrite Hc. vm_compute. reflexivity.
  - rewrite Ht. vm_compute. reflexivity.
Defined.

(** *** Saved edits in a row *)

Lemma settled_edits_follow_commits edits :
  forall s0 t0,
    history s0 = history t0 ->
    historyIndex s0 = historyIndex t0 ->
    exists s,
      run (settledEdits edits) s0 = Some s
      /\ history s = history (commits (map (fun e => fst (fst e)) edits) t0)
      /\ historyIndex s
         = historyIndex (commits (map (fun e => fst (fst e)) edits) t0).
Proof.
  induction edits as [|e edits IH]; intros s0 t0 Hh Hi.
  - exists s0. repeat split; assumption.
  - cbn [settledEdits flat_map app run step map].
    fold (settledEdits edits).
    set (v := fst (fst e)).
    set (s1 := typingTimeoutFires
                 (handleContentChange v (snd (fst e)) (snd e) s0)).
    change (commits (v :: map (fun e0 => fst (fst e0)) edits) t0)
      with (commits (map (fun e0 => fst (fst e0)) edits) (commit v t0)).
    destruct (settled_edit_commits v (snd (fst e)) (snd e) s0)
      as (Hh1 & Hi1 & _).
    fold s1 in Hh1, Hi1.
    apply IH.
    + rewrite Hh1. unfold commit, saveToHistory.
      cbn [history setHistory setHistoryIndex]. now rewrite Hh, Hi.
    + rewrite Hi1. unfold commit, saveToHistory.
      cbn [historyIndex setHistory setHistoryIndex]. now rewrite Hi.
Qed.

(** X18.  After [n] edits from the initial state, each followed by its
    typing timeout before the next event, the index is [n - 1] and the
    log holds the last [min n 50] values typed: the index is a position
    of the log exactly for [1 <= n <= 50]. *)
Theorem index_after_settled_edits now edits :
  exists s,
    run (settledEdits edits) (initialState now) = Some s
    /\ historyIndex s = Z.of_nat (List.length edits) - 1
    /\ history s = keepLast 50 (map (fun e => fst (fst e)) edits)
    /\ List.length (history s) = Nat.min 50 (List.length edits)
    /\ (0 <= historyIndex s < Z.of_nat (List.length (history s))
        <-> (1 <= List.length edits <= 50)%nat).
Proof.
  destruct (settled_edits_follow_commits edits
              (initialState now) (initialState now) eq_refl eq_refl)
    as (s & Hrun & Hh & Hi).
  destruct (commits_initial now (map (fun e => fst (fst e)) edits))
    as [Ch Ci].
  rewrite Ch in Hh. rewrite Ci, length_map in Hi.
  assert (Hlen : List.length (history s) = Nat.min 50 (List.length edits))
    by (rewrite Hh, length_keepLast, length_map; reflexivity).
  exists s. split; [exact Hrun|]. split; [exact Hi|].
  split; [exact Hh|]. split; [exact Hlen|].
  rewrite Hi, Hlen. lia.
Qed.
